(** * Snippet builder: menu renderer, path resolver and session loop

    A shallow embedding of [builder.py].  The nested dictionary [SNIPPETS]
    becomes a tree [node]; the three functions [print_menu], [get_nested]
    and [main] become computations in a small state-and-exception monad
    over a [World] (the table, standard input, standard output and the
    clipboard), because the Python code prints, reads lines and raises
    exceptions.

    A Python [str] is modelled by its UTF-8 encoding, a [string] of
    bytes; [Str.chars] cuts it back into characters.  [str.isdigit],
    [int] and [str.strip] classify characters with the tables of the
    Unicode Character Database 14.0, the one CPython 3.11 carries. *)

From Stdlib Require Import List String Ascii ZArith Lia Bool Arith.
From Stdlib Require Import DecimalString DecimalNat.
Import ListNotations.

Local Open Scope list_scope.
Local Open Scope Z_scope.

Infix "+++" := String.append (right associativity, at level 60).

(** ** Python strings *)

Module Str.

(** *** Characters

    The bytes of a [str] in UTF-8, cut into characters: each character is
    its code point and the bytes that encode it.  A byte that starts no
    well-formed sequence stands alone, under the code point by which
    Python escapes it, and is no digit and no white space. *)

Definition byte (c : ascii) : N := N_of_ascii c.

Definition between (lo hi x : N) : bool := ((lo <=? x) && (x <=? hi))%N.

Definition continuation (b : N) : bool := between 128 191 b.

Definition two_bytes (a b : N) : bool :=
  between 194 223 a && continuation b.

Definition three_bytes (a b c : N) : bool :=
  (((a =? 224)%N && between 160 191 b)
   || (between 225 236 a && continuation b)
   || ((a =? 237)%N && between 128 159 b)
   || (between 238 239 a && continuation b))
  && continuation c.

Definition four_bytes (a b c d : N) : bool :=
  (((a =? 240)%N && between 144 191 b)
   || (between 241 243 a && continuation b)
   || ((a =? 244)%N && between 128 143 b))
  && continuation c && continuation d.

Definition code2 (a b : N) : N := ((a - 192) * 64 + (b - 128))%N.

Definition code3 (a b c : N) : N :=
  (((a - 224) * 64 + (b - 128)) * 64 + (c - 128))%N.

Definition code4 (a b c d : N) : N :=
  ((((a - 240) * 64 + (b - 128)) * 64 + (c - 128)) * 64 + (d - 128))%N.

Definition escaped (a : N) : N := (56320 + a)%N.

Definition char : Type := (N * string)%type.

Fixpoint chars (s : string) : list char :=
  match s with
  | EmptyString => []
  | String a s1 =>
      if (byte a <? 128)%N
      then (byte a, String a EmptyString) :: chars s1
      else
        match s1 with
        | EmptyString => (escaped (byte a), String a EmptyString) :: chars s1
        | String b s2 =>
            if two_bytes (byte a) (byte b)
            then (code2 (byte a) (byte b),
                  String a (String b EmptyString)) :: chars s2
            else
              match s2 with
              | EmptyString =>
                  (escaped (byte a), String a EmptyString) :: chars s1
              | String c s3 =>
                  if three_bytes (byte a) (byte b) (byte c)
                  then (code3 (byte a) (byte b) (byte c),
                        String a (String b (String c EmptyString)))
                       :: chars s3
                  else
                    match s3 with
                    | EmptyString =>
                        (escaped (byte a), String a EmptyString) :: chars s1
                    | String d s4 =>
                        if four_bytes (byte a) (byte b) (byte c) (byte d)
                        then (code4 (byte a) (byte b) (byte c) (byte d),
                              String a (String b (String c
                                (String d EmptyString))))
                             :: chars s4
                        else
                          (escaped (byte a), String a EmptyString)
                          :: chars s1
                    end
              end
        end
  end.

(** The characters back into bytes. *)
(** Bytes that are all above 127. *)
Fixpoint high_bytes (s : string) : bool :=
  match s with
  | EmptyString => true
  | String a rest => (128 <=? byte a)%N && high_bytes rest
  end.

Definition unchars (cs : list char) : string :=
  fold_right (fun c rest => snd c +++ rest) EmptyString cs.

(** *** Digits

    The code points of the decimal digit zero of each script: the nine
    code points after each are its digits one to nine. *)
Definition decimal_zeros : list N :=
  [
   48; 1632; 1776; 1984; 2406; 2534; 2662; 2790; 2918; 3046; 3174; 3302;
   3430; 3558; 3664; 3792; 3872; 4160; 4240; 6112; 6160; 6470; 6608; 6784;
   6800; 6992; 7088; 7232; 7248; 42528; 43216; 43264; 43472; 43504; 43600;
   44016; 65296; 66720; 68912; 69734; 69872; 69942; 70096; 70384; 70736;
   70864; 71248; 71360; 71472; 71904; 72016; 72784; 73040; 73120; 92768;
   92864; 93008; 120782; 120792; 120802; 120812; 120822; 123200; 123632;
   125264; 130032
  ]%N.

(** The value [int] gives a character, if it is a decimal digit. *)
Definition decimal_value (cp : N) : option N :=
  match find (fun zero => between zero (zero + 9) cp) decimal_zeros with
  | Some zero => Some (cp - zero)%N
  | None => None
  end.

(** The characters that are digits without being decimal: superscripts,
    subscripts, circled digits and the like. *)
Definition other_digits : list (N * N) :=
  [
   (178, 179); (185, 185); (4969, 4977); (6618, 6618); (8304, 8304);
   (8308, 8313); (8320, 8329); (9312, 9320); (9332, 9340); (9352, 9360);
   (9450, 9450); (9461, 9469); (9471, 9471); (10102, 10110);
   (10112, 10120); (10122, 10130); (68160, 68163); (69216, 69224);
   (69714, 69722); (127232, 127242)
  ]%N.

(** [c.isdigit()] for a character. *)
Definition is_digit (cp : N) : bool :=
  match decimal_value cp with
  | Some _ => true
  | None => existsb (fun r => between (fst r) (snd r) cp) other_digits
  end.

(** [part.isdigit()]: at least one character, and all of them digits. *)
Definition isdigit (s : string) : bool :=
  match chars s with
  | [] => false
  | cs => forallb (fun c => is_digit (fst c)) cs
  end.

Definition int_step (acc : option Z) (c : char) : option Z :=
  match acc, decimal_value (fst c) with
  | Some n, Some d => Some (10 * n + Z.of_N d)
  | _, _ => None
  end.

(** [int(part)] for a [part] that passed [isdigit]: its base-10 value, or
    [None] for the [ValueError] that a digit which is not decimal gives. *)
Definition int (s : string) : option Z :=
  match chars s with
  | [] => None
  | cs => fold_left int_step cs (Some 0)
  end.

(** [str(i)] for the counter of [enumerate]: decimal, no leading zero. *)
Definition str (i : nat) : string := NilZero.string_of_uint (Nat.to_uint i).

(** [s.split(sep)] for a one-character separator. *)
Fixpoint split (sep : ascii) (s : string) : list string :=
  match s with
  | EmptyString => [EmptyString]
  | String c s' =>
      if Ascii.eqb c sep then EmptyString :: split sep s'
      else match split sep s' with
           | h :: t => String c h :: t
           | [] => [String c EmptyString]
           end
  end.

(** [sep.join(parts)]. *)
Fixpoint join (sep : string) (parts : list string) : string :=
  match parts with
  | [] => EmptyString
  | [p] => p
  | p :: rest => p +++ sep +++ join sep rest
  end.

(** *** White space

    The characters [str.strip()] removes. *)
Definition whitespace : list (N * N) :=
  [
   (9, 13); (28, 32); (133, 133); (160, 160); (5760, 5760); (8192, 8202);
   (8232, 8233); (8239, 8239); (8287, 8287); (12288, 12288)
  ]%N.

Definition is_space (cp : N) : bool :=
  existsb (fun r => between (fst r) (snd r) cp) whitespace.

Definition space_char (c : char) : bool := is_space (fst c).

Fixpoint drop_space (cs : list char) : list char :=
  match cs with
  | [] => []
  | c :: rest => if space_char c then drop_space rest else cs
  end.

(** What [strip] keeps of the characters: all but the white space at the
    two ends. *)
Definition strip_chars (cs : list char) : list char :=
  rev (drop_space (rev (drop_space cs))).

(** [s.strip()]. *)
Definition strip (s : string) : string := unchars (strip_chars (chars s)).

(** [s.lower()] changes the letters [A] to [Z] as below.  Of the other
    characters it turns none into a letter of [q], [quit], [exit], [n] or
    [no] alone, so for the comparisons of [main] it may leave them. *)
Definition lower_char (c : ascii) : ascii :=
  let n := nat_of_ascii c in
  if (65 <=? n)%nat && (n <=? 90)%nat then ascii_of_nat (n + 32) else c.

(** [s.lower()]. *)
Fixpoint lower (s : string) : string :=
  match s with
  | EmptyString => EmptyString
  | String c s' => String (lower_char c) (lower s')
  end.

(** [s * n]. *)
Fixpoint times (s : string) (n : nat) : string :=
  match n with
  | O => EmptyString
  | S n' => s +++ times s n'
  end.

(** [s in (t1, t2, ...)]. *)
Definition among (s : string) (ts : list string) : bool :=
  existsb (String.eqb s) ts.

(** Whether the first, the last of the characters is white space. *)
Definition starts_with_space (cs : list char) : bool :=
  match cs with
  | [] => false
  | c :: _ => space_char c
  end.

Definition ends_with_space (cs : list char) : bool :=
  starts_with_space (rev cs).

(** [sep not in s] for a one-character [sep]. *)
Fixpoint free_of (sep : ascii) (s : string) : bool :=
  match s with
  | EmptyString => true
  | String c s' => negb (Ascii.eqb c sep) && free_of sep s'
  end.

End Str.

(** ** The catalog *)

(** A value stored in [SNIPPETS]: a snippet text ([str]) or a nested
    dictionary.  A Python [dict] keeps its items in insertion order, so a
    dictionary is the list of its items. *)
#[warning="-register-all"] Inductive node : Type :=
| Leaf (payload : string)
| Interior (items : list (string * node)).

Definition dict : Type := list (string * node).

(** [isinstance(v, dict)]. *)
Definition isinstance_dict (v : node) : bool :=
  match v with
  | Interior _ => true
  | Leaf _ => false
  end.

Definition keys (d : dict) : list string := map fst d.

(** A [dict] holds each key once, at every level. *)
Fixpoint well_formed (v : node) : Prop :=
  match v with
  | Leaf _ => True
  | Interior d =>
      NoDup (keys d) /\
      (fix each (d : dict) : Prop :=
         match d with
         | [] => True
         | (_, v) :: rest => well_formed v /\ each rest
         end) d
  end.

(** Item lookup by key. *)
Fixpoint lookup (key : string) (d : dict) : option node :=
  match d with
  | [] => None
  | (k, v) :: rest => if String.eqb key k then Some v else lookup key rest
  end.

(** ** Exceptions, the world and the monad *)

Inductive exc : Type :=
| IndexError
| KeyError
| AttributeError
| TypeError
| ValueError
| EOFError
| ImportError.

(** What reaches the terminal: [print(s)] writes the line [s]; [input(p)]
    writes the prompt [p] without a line end. *)
Inductive written : Type :=
| Line (s : string)
| Prompt (s : string).

Record World : Type := mkWorld {
  table : node;                 (* the module global [SNIPPETS] *)
  stdin : list string;          (* the lines the user will type *)
  stdout : list written;        (* everything written so far *)
  clipboard : option string;    (* the system clipboard *)
  pyperclip_installed : bool    (* whether [import pyperclip] succeeds *)
}.

Definition M (A : Type) : Type := World -> (exc + A) * World.

Definition ret {A} (a : A) : M A := fun w => (inr a, w).

Definition raise {A} (e : exc) : M A := fun w => (inl e, w).

Definition bind {A B} (m : M A) (k : A -> M B) : M B :=
  fun w =>
    match m w with
    | (inl e, w') => (inl e, w')
    | (inr a, w') => k a w'
    end.

Notation "x <- m ;; k" := (bind m (fun x => k))
  (at level 61, m at next level, right associativity).
Notation "m ;; k" := (bind m (fun _ => k))
  (at level 61, right associativity).

(** [try: m  except <handled>: h]. *)
Definition try_except {A} (m : M A) (handled : exc -> bool) (h : M A) : M A :=
  fun w =>
    match m w with
    | (inl e, w') => if handled e then h w' else (inl e, w')
    | (inr a, w') => (inr a, w')
    end.

Definition print (s : string) : M unit :=
  fun w => (inr tt, mkWorld (table w) (stdin w) (stdout w ++ [Line s])
                            (clipboard w) (pyperclip_installed w)).

Definition input (prompt : string) : M string :=
  fun w =>
    let out := stdout w ++ [Prompt prompt] in
    match stdin w with
    | [] => (inl EOFError,
             mkWorld (table w) [] out (clipboard w) (pyperclip_installed w))
    | l :: rest => (inr l,
             mkWorld (table w) rest out (clipboard w) (pyperclip_installed w))
    end.

(** ** [get_nested] *)

(** [current.values()]: only a dictionary has the method. *)
Definition values (current : node) : M (list node) :=
  match current with
  | Interior d => ret (map snd d)
  | Leaf _ => raise AttributeError
  end.

(** [l[idx]] on a list: a negative index counts from the end. *)
Definition list_getitem {A} (l : list A) (idx : Z) : M A :=
  let n := Z.of_nat (List.length l) in
  let i := if idx <? 0 then idx + n else idx in
  if (i <? 0) || (n <=? i) then raise IndexError
  else match nth_error l (Z.to_nat i) with
       | Some x => ret x
       | None => raise IndexError
       end.

(** [current[part]] with a string [part]: a dictionary looks the key up, a
    string refuses a string index. *)
Definition getitem (current : node) (part : string) : M node :=
  match current with
  | Interior d =>
      match lookup part d with
      | Some v => ret v
      | None => raise KeyError
      end
  | Leaf _ => raise TypeError
  end.

(** The body of the [for part in ...] loop. *)
Definition get_nested_step (current : node) (part : string) : M node :=
  if Str.isdigit part then
    match Str.int part with
    | None => raise ValueError
    | Some value =>
        let idx := value - 1 in
        vs <- values current ;;
        list_getitem vs idx
    end
  else
    getitem current part.

Fixpoint get_nested_parts (current : node) (parts : list string) : M node :=
  match parts with
  | [] => ret current
  | part :: rest =>
      next <- get_nested_step current part ;;
      get_nested_parts next rest
  end.

Definition get_nested (d : node) (path : string) : M node :=
  get_nested_parts d (Str.split "." path).

(** ** [print_menu] *)

Definition indent (level : nat) : string := Str.times "  " level.

Fixpoint print_menu (d : node) (level : nat) (prefix : string) : M unit :=
  match d with
  | Leaf _ => raise AttributeError      (* a string has no [items()] *)
  | Interior items =>
      (fix each (kvs : dict) (i : nat) : M unit :=
         match kvs with
         | [] => ret tt
         | (k, v) :: rest =>
             (if isinstance_dict v then
                print (indent level +++ prefix +++ Str.str i +++ ") " +++ k +++ "/") ;;
                print_menu v (S level) (prefix +++ Str.str i +++ ".")
              else
                print (indent level +++ prefix +++ Str.str i +++ ") " +++ k)) ;;
             each rest (S i)
         end) items 1%nat
  end.

(** The [for] loop of [print_menu] at a given [level] and [prefix], from
    the counter value [i] on: the same term as the loop inside
    [print_menu], under a name. *)
Definition print_menu_items (level : nat) (prefix : string)
  : dict -> nat -> M unit :=
  fix each (kvs : dict) (i : nat) : M unit :=
    match kvs with
    | [] => ret tt
    | (k, v) :: rest =>
        (if isinstance_dict v then
           print (indent level +++ prefix +++ Str.str i +++ ") " +++ k +++ "/") ;;
           print_menu v (S level) (prefix +++ Str.str i +++ ".")
         else
           print (indent level +++ prefix +++ Str.str i +++ ") " +++ k)) ;;
        each rest (S i)
    end.

(** ** [main] *)

Definition nl : string := String (ascii_of_nat 10) EmptyString.

(** [code.strip()]: a method of strings; a dictionary has no such
    attribute. *)
Definition method_strip (code : node) : M string :=
  match code with
  | Leaf s => ret (Str.strip s)
  | Interior _ => raise AttributeError
  end.

Definition import_pyperclip : M unit :=
  fun w => if pyperclip_installed w then (inr tt, w) else (inl ImportError, w).

Definition pyperclip_copy (text : string) : M unit :=
  fun w => (inr tt, mkWorld (table w) (stdin w) (stdout w) (Some text)
                            (pyperclip_installed w)).

Definition is_ImportError (e : exc) : bool :=
  match e with
  | ImportError => true
  | _ => false
  end.

(** Reading the global name [SNIPPETS]. *)
Definition global_SNIPPETS : M node := fun w => (inr (table w), w).

(** How one pass through the body of [while True] ends. *)
Inductive control : Type :=
| Continue       (* [continue], or the end of the body *)
| Break
| Return.

Definition main_body : M control :=
  shown_table <- global_SNIPPETS ;;
  print_menu shown_table 0 EmptyString ;;
  print EmptyString ;;
  line <- input "→ " ;;
  let choice := Str.strip line in
  if Str.among (Str.lower choice) ["q"; "quit"; "exit"; EmptyString]%string
  then ret Return
  else
    found <- try_except (searched_table <- global_SNIPPETS ;;
                         v <- get_nested searched_table choice ;;
                         ret (Some v))
                        (fun _ => true)
                        (print ("Invalid selection." +++ nl) ;; ret None) ;;
    match found with
    | None => ret Continue
    | Some snippet =>
        let code := snippet in
        print (nl +++ Str.times "═" 70) ;;
        shown <- method_strip code ;;
        print shown ;;
        print (Str.times "═" 70 +++ nl) ;;
        answer <- input "Copy to clipboard? [Y/n] " ;;
        (if negb (Str.among (Str.lower (Str.strip answer)) ["n"; "no"]%string)
         then
           try_except
             (import_pyperclip ;;
              copied <- method_strip code ;;
              pyperclip_copy copied ;;
              print ("(copied)" +++ nl))
             is_ImportError
             (print ("(install pyperclip → pip install pyperclip)" +++ nl))
         else ret tt) ;;
        again <- input "Another? [Y/n] " ;;
        if Str.among (Str.lower (Str.strip again)) ["n"; "no"]%string
        then ret Break
        else print (Str.times "─" 60 +++ nl) ;; ret Continue
    end.

(** The [while True] loop.  [fuel] bounds the number of passes; [None]
    means the bound was reached before the loop ended. *)
Fixpoint main_loop (fuel : nat) (w : World)
  : option ((exc + unit) * World) :=
  match fuel with
  | O => None
  | S fuel' =>
      match main_body w with
      | (inl e, w') => Some (inl e, w')
      | (inr Continue, w') => main_loop fuel' w'
      | (inr Break, w') => Some (inr tt, w')
      | (inr Return, w') => Some (inr tt, w')
      end
  end.

(** [main].  The module calls it under [except KeyboardInterrupt] only, and
    the model has no interrupts: an exception that leaves [main] ends the
    program. *)
Definition main (fuel : nat) (w : World)
  : option ((exc + unit) * World) :=
  match print ("Clean Snippet Builder  (q = quit)" +++ nl) w with
  | (inl e, w') => Some (inl e, w')
  | (inr _, w') => main_loop fuel w'
  end.

(** ** The table [SNIPPETS]

    Each snippet is written in the source as [dedent] of a literal; the
    texts below are the results, line by line, every line ended by a line
    feed.  [dq] is the double quote, [backslash] the backslash. *)

Definition dq : string := String (ascii_of_nat 34) EmptyString.

Definition backslash : string := String (ascii_of_nat 92) EmptyString.

Definition cat (pieces : list string) : string :=
  fold_right String.append EmptyString pieces.

Definition text (lines : list string) : string :=
  cat (map (fun l => l +++ nl) lines).

Local Open Scope string_scope.

Definition snippet_basic_argparse_usage : string :=
  text [
    "import argparse";
    EmptyString;
    "parser = argparse.ArgumentParser(";
    cat ["    description="; dq; "Simple script with arguments"; dq];
    ")";
    cat ["parser.add_argument("; dq; "input_file"; dq; ", help="; dq; "Path to the input file"; dq; ")"];
    cat ["parser.add_argument("; dq; "-o"; dq; ", "; dq; "--output"; dq; ", default="; dq; "result.txt"; dq; ","];
    cat ["                    help="; dq; "Output file name (default: result.txt)"; dq; ")"];
    cat ["parser.add_argument("; dq; "-v"; dq; ", "; dq; "--verbose"; dq; ", action="; dq; "store_true"; dq; ","];
    cat ["                    help="; dq; "Increase output verbosity"; dq; ")"];
    EmptyString;
    "args = parser.parse_args()";
    EmptyString;
    cat ["print(f"; dq; "Input  : {args.input_file}"; dq; ")"];
    cat ["print(f"; dq; "Output : {args.output}"; dq; ")"];
    cat ["print(f"; dq; "Verbose: {args.verbose}"; dq; ")"]
  ].

Definition snippet_argparse_with_subcommands : string :=
  text [
    "import argparse";
    EmptyString;
    "def process(args):";
    cat ["    print(f"; dq; "Processing {args.file} ..."; dq; ")"];
    EmptyString;
    "def convert(args):";
    cat ["    print(f"; dq; "Converting {args.source} → {args.target}"; dq; ")"];
    EmptyString;
    "parser = argparse.ArgumentParser()";
    cat ["subparsers = parser.add_subparsers(dest="; dq; "command"; dq; ", required=True)"];
    EmptyString;
    cat ["p1 = subparsers.add_parser("; dq; "process"; dq; ")"];
    cat ["p1.add_argument("; dq; "file"; dq; ")"];
    "p1.set_defaults(func=process)";
    EmptyString;
    cat ["p2 = subparsers.add_parser("; dq; "convert"; dq; ")"];
    cat ["p2.add_argument("; dq; "source"; dq; ")"];
    cat ["p2.add_argument("; dq; "target"; dq; ")"];
    "p2.set_defaults(func=convert)";
    EmptyString;
    "args = parser.parse_args()";
    "args.func(args)"
  ].

Definition snippet_minimal_Flask_application : string :=
  text [
    "from flask import Flask";
    EmptyString;
    "app = Flask(__name__)";
    EmptyString;
    cat ["@app.route("; dq; "/"; dq; ")"];
    "def home():";
    cat ["    return "; dq; "<h1>Hello from Flask!</h1>"; dq];
    EmptyString;
    cat ["@app.route("; dq; "/hello/<name>"; dq; ")"];
    "def hello(name):";
    cat ["    return f"; dq; "<h2>Hello, {name}!</h2>"; dq];
    EmptyString;
    cat ["if __name__ == "; dq; "__main__"; dq; ":"];
    cat ["    app.run(host="; dq; "0.0.0.0"; dq; ", port=5000, debug=True)"]
  ].

Definition snippet_Flask_with_templates_recommended : string :=
  text [
    "# File: app.py";
    "from flask import Flask, render_template";
    EmptyString;
    "app = Flask(__name__)";
    EmptyString;
    cat ["@app.route("; dq; "/"; dq; ")"];
    "def index():";
    cat ["    return render_template("; dq; "index.html"; dq; ", title="; dq; "Welcome"; dq; ")"];
    EmptyString;
    cat ["if __name__ == "; dq; "__main__"; dq; ":"];
    "    app.run(debug=True)";
    EmptyString;
    "# File: templates/index.html";
    "<!doctype html>";
    "<html>";
    "<head><title>{{ title }}</title></head>";
    "<body>";
    "  <h1>Hello from Flask</h1>";
    "  <p>Using Jinja2 templates is recommended.</p>";
    "</body>";
    "</html>"
  ].

Definition snippet_serve_static_files_css_js_images : string :=
  text [
    cat ["# Place files in the "; dq; "static"; dq; " folder next to app.py"];
    EmptyString;
    "from flask import Flask, send_from_directory";
    EmptyString;
    cat ["app = Flask(__name__, static_folder="; dq; "static"; dq; ")"];
    EmptyString;
    "# Optional: custom static route";
    cat ["@app.route("; dq; "/assets/<path:filename>"; dq; ")"];
    "def custom_static(filename):";
    cat ["    return send_from_directory("; dq; "static"; dq; ", filename)"];
    EmptyString;
    "# Normal usage (recommended):";
    cat ["# <link rel="; dq; "stylesheet"; dq; " href="; dq; "/static/style.css"; dq; ">"];
    cat ["# <img src="; dq; "/static/logo.png"; dq; ">"]
  ].

Definition snippet_basic_file_upload_endpoint : string :=
  text [
    "from flask import Flask, request, redirect, url_for";
    "from werkzeug.utils import secure_filename";
    "import os";
    EmptyString;
    "app = Flask(__name__)";
    cat ["UPLOAD_FOLDER = "; dq; "uploads"; dq];
    cat ["ALLOWED_EXTENSIONS = {"; dq; "txt"; dq; ", "; dq; "pdf"; dq; ", "; dq; "png"; dq; ", "; dq; "jpg"; dq; ", "; dq; "jpeg"; dq; ", "; dq; "gif"; dq; "}"];
    EmptyString;
    cat ["app.config["; dq; "UPLOAD_FOLDER"; dq; "] = UPLOAD_FOLDER"];
    "os.makedirs(UPLOAD_FOLDER, exist_ok=True)";
    EmptyString;
    "def allowed_file(filename):";
    cat ["    return "; dq; "."; dq; " in filename and "; backslash];
    cat ["           filename.rsplit("; dq; "."; dq; ", 1)[1].lower() in ALLOWED_EXTENSIONS"];
    EmptyString;
    cat ["@app.route("; dq; "/"; dq; ", methods=["; dq; "GET"; dq; ", "; dq; "POST"; dq; "])"];
    "def upload_file():";
    cat ["    if request.method == "; dq; "POST"; dq; ":"];
    cat ["        if "; dq; "file"; dq; " not in request.files:"];
    cat ["            return "; dq; "No file part"; dq; ", 400"];
    cat ["        file = request.files["; dq; "file"; dq; "]"];
    cat ["        if file.filename == "; dq; dq; ":"];
    cat ["            return "; dq; "No selected file"; dq; ", 400"];
    "        if file and allowed_file(file.filename):";
    "            filename = secure_filename(file.filename)";
    cat ["            file.save(os.path.join(app.config["; dq; "UPLOAD_FOLDER"; dq; "], filename))"];
    cat ["            return f"; dq; "File '{filename}' uploaded successfully!"; dq];
    "        else:";
    cat ["            return "; dq; "File type not allowed"; dq; ", 400"];
    "    return '''";
    "    <!doctype html>";
    "    <title>Upload File</title>";
    "    <h1>Upload a file</h1>";
    "    <form method=post enctype=multipart/form-data>";
    "      <input type=file name=file>";
    "      <input type=submit value=Upload>";
    "    </form>";
    "    '''";
    EmptyString;
    cat ["if __name__ == "; dq; "__main__"; dq; ":"];
    "    app.run(debug=True)"
  ].

Definition snippet_download_uploaded_file : string :=
  text [
    "from flask import Flask, send_from_directory, abort";
    "import os";
    EmptyString;
    "app = Flask(__name__)";
    cat ["UPLOAD_FOLDER = "; dq; "uploads"; dq];
    cat ["app.config["; dq; "UPLOAD_FOLDER"; dq; "] = UPLOAD_FOLDER"];
    EmptyString;
    cat ["@app.route("; dq; "/uploads/<filename>"; dq; ")"];
    "def uploaded_file(filename):";
    cat ["    if os.path.exists(os.path.join(app.config["; dq; "UPLOAD_FOLDER"; dq; "], filename)):"];
    cat ["        return send_from_directory(app.config["; dq; "UPLOAD_FOLDER"; dq; "], filename)"];
    "    else:";
    "        abort(404)";
    EmptyString;
    cat ["# Example link: <a href="; dq; "/uploads/report.pdf"; dq; ">Download report</a>"]
  ].

Definition SNIPPETS : node :=
  Interior
   [("Command Line Arguments",
    Interior
     [("basic argparse usage",
      Leaf snippet_basic_argparse_usage);
      ("argparse with subcommands",
      Leaf snippet_argparse_with_subcommands)]);
    ("Flask – Basic Setup",
    Interior
     [("minimal Flask application",
      Leaf snippet_minimal_Flask_application);
      ("Flask with templates (recommended)",
      Leaf snippet_Flask_with_templates_recommended)]);
    ("Flask – Static Files",
    Interior
     [("serve static files (css/js/images)",
      Leaf snippet_serve_static_files_css_js_images)]);
    ("Flask – File Upload",
    Interior
     [("basic file upload endpoint",
      Leaf snippet_basic_file_upload_endpoint)]);
    ("Flask – Download / Serve Uploaded Files",
    Interior
     [("download uploaded file",
      Leaf snippet_download_uploaded_file)]);
    ("HTTP / Requests",
    Interior []);
    ("Small Web Servers",
    Interior []);
    ("File & Data Handling",
    Interior []);
    ("Concurrency Basics",
    Interior [])].

Local Close Scope string_scope.

(** ** Vocabulary of the specification *)

(** The names of section 7 of the specification for the exceptions that
    [get_nested] lets escape. *)
Inductive ResolutionError : Type :=
| NotContainer
| IndexOutOfRange
| NameNotFound.

Definition kind_of (e : exc) : option ResolutionError :=
  match e with
  | AttributeError | TypeError => Some NotContainer
  | IndexError => Some IndexOutOfRange
  | KeyError => Some NameNotFound
  | ValueError | EOFError | ImportError => None
  end.

(** The exception of a step from a snippet text: [int] comes first and
    rejects a digit that is not decimal; a string has no [values()] and
    takes no string as an index. *)
Definition text_error (part : string) : exc :=
  if Str.isdigit part
  then match Str.int part with
       | None => ValueError
       | Some _ => AttributeError
       end
  else TypeError.

(** The segment that follows a dot: the first of the pieces. *)
Definition next_segment (more : string) : string :=
  hd EmptyString (Str.split "." more).

(** A computation that only reads: its result does not depend on the
    world and it hands the world back as it got it. *)
Definition read_only {A} (m : M A) : Prop :=
  exists r, forall w, m w = (r, w).

(** [enumerate(l, start)]. *)
Definition enumerate {A} (l : list A) (start : nat) : list (nat * A) :=
  combine (seq start (List.length l)) l.

(** The world after [written] more has gone to the terminal. *)
Definition append_out (w : World) (more : list written) : World :=
  mkWorld (table w) (stdin w) (stdout w ++ more) (clipboard w)
          (pyperclip_installed w).

(** What [print_menu d level prefix] writes when nothing was written
    before. *)
Definition rendered (d : node) (level : nat) (prefix : string)
  : list written :=
  stdout (snd (print_menu d level prefix (mkWorld d [] [] None false))).

(** The lines the specification gives for one child: its numbered line,
    and for a category the slash and the rendering of the category one
    level deeper under the extended prefix. *)
Definition child_lines (level : nat) (prefix : string)
           (numbered : nat * (string * node)) : list written :=
  let '(i, (k, v)) := numbered in
  match v with
  | Interior _ =>
      Line (indent level +++ prefix +++ Str.str i +++ ") " +++ k +++ "/")
      :: rendered v (S level) (prefix +++ Str.str i +++ ".")
  | Leaf _ =>
      [Line (indent level +++ prefix +++ Str.str i +++ ") " +++ k)]
  end.

(** What running [print_menu] does, in terms of what it does on the
    children. *)
Definition runs_as_rendered (v : node) : Prop :=
  forall level prefix w,
    print_menu v level prefix w
    = (if isinstance_dict v then inr tt else inl AttributeError,
       append_out w (rendered v level prefix)).

(** [located root chain target]: from [root], taking at each level the
    child at the given 1-based position, which bears the given name, leads
    to [target]. *)
Inductive located : node -> list (nat * string) -> node -> Prop :=
| located_here v : located v [] v
| located_child items n k v chain target :
    nth_error items n = Some (k, v) ->
    located v chain target ->
    located (Interior items) ((S n, k) :: chain) target.

(** The dotted path of the position numbers, and of the names. *)
Definition numeric_path (chain : list (nat * string)) : string :=
  Str.join "." (map (fun c => Str.str (fst c)) chain).

Definition name_path (chain : list (nat * string)) : string :=
  Str.join "." (map snd chain).

(** A name that [get_nested] reads as a name: it does not pass
    [isdigit] and holds no dot. *)
Definition plain_name (k : string) : bool :=
  negb (Str.isdigit k) && Str.free_of "." k.

(** The catalog of the worked example: two categories, [A] holding one
    snippet and [B] empty. *)
Definition example_catalog : node :=
  Interior [("A"%string, Interior [("x1"%string, Leaf "  hello  ")]);
            ("B"%string, Interior [])].

(** A catalog whose names are digits: the first snippet is named [2], the
    second [1]. *)
Definition digit_named_catalog : node :=
  Interior [("2"%string, Leaf "a"); ("1"%string, Leaf "b")].

(** The world at the start of a session: the table as loaded, the lines
    the user will type, nothing written, an empty clipboard, [pyperclip]
    installed. *)
Definition session (loaded : node) (lines : list string) : World :=
  mkWorld loaded lines [] None true.

Definition world0 (lines : list string) : World := session example_catalog lines.

(** The number of entries of a catalog: every key, at every depth. *)
Fixpoint count_entries (v : node) : nat :=
  match v with
  | Leaf _ => O
  | Interior items =>
      (fix each (kvs : dict) : nat :=
         match kvs with
         | [] => O
         | (_, child) :: rest => S (count_entries child + each rest)
         end) items
  end.

(** The line [print_menu] writes for an entry: indentation, label, name,
    and a slash when the entry is a category. *)
Definition menu_line (depth : nat) (label name : string) (entry : node)
  : written :=
  Line (indent depth +++ label +++ ") " +++ name
        +++ (if isinstance_dict entry then "/" else EmptyString)).

(** The greeting [main] prints first. *)
Definition greeting : written :=
  Line ("Clean Snippet Builder  (q = quit)" +++ nl).

(** What a pass writes before it looks at the choice: the menu, an empty
    line and the prompt. *)
Definition menu_and_prompt (w : World) : list written :=
  rendered (table w) 0 EmptyString ++ [Line EmptyString; Prompt "→ "].

(** [later_world w w']: [w'] comes after [w] in a run that read input in
    order and only added to the output, with the same table and the same
    installation. *)
Definition later_world (w w' : World) : Prop :=
  table w' = table w /\
  pyperclip_installed w' = pyperclip_installed w /\
  (exists added, stdout w' = stdout w ++ added) /\
  (exists consumed, stdin w = consumed ++ stdin w').

(** A path that names each step of a chain either by its position or by
    its name, as [by_name] says step by step. *)
Definition segment_for (by_name : bool) (step : nat * string) : string :=
  if by_name then snd step else Str.str (fst step).

Definition mixed_path (by_name : list bool) (chain : list (nat * string))
  : string :=
  Str.join "." (map (fun c => segment_for (fst c) (snd c))
                    (combine by_name chain)).

(** The no-break space U+00A0, in UTF-8. *)
Definition nbsp : string :=
  String (ascii_of_N 194) (String (ascii_of_N 160) EmptyString).

(** A catalog whose second name is the full-width digit one, U+FF11, and
    whose second child is a snippet wrapped in no-break spaces. *)
Definition fullwidth_named_catalog : node :=
  Interior [("b"%string, Interior [("z"%string, Leaf "y")]);
            ("１"%string, Leaf (nbsp +++ "x" +++ nbsp))].

(** * Properties *)

(** ** Strings *)

Module StrFacts.
Import Str.

Lemma split_not_nil sep s : split sep s <> [].
Proof.
  destruct s as [|c s]; simpl; [discriminate|].
  destruct (Ascii.eqb c sep); [discriminate|].
  destruct (split sep s); discriminate.
Qed.

Lemma split_append sep p q :
  split sep (p +++ String sep q) = split sep p ++ split sep q.
Proof.
  induction p as [|c p IH]; simpl.
  - now rewrite Ascii.eqb_refl.
  - destruct (Ascii.eqb c sep); [now rewrite IH|].
    rewrite IH. pose proof (split_not_nil sep p) as Hne.
    destruct (split sep p); [contradiction|reflexivity].
Qed.

Lemma split_free sep s : free_of sep s = true -> split sep s = [s].
Proof.
  induction s as [|c s IH]; simpl; [reflexivity|].
  intros H. apply andb_prop in H as [Hc Hs].
  apply negb_true_iff in Hc. rewrite Hc, (IH Hs). reflexivity.
Qed.

Lemma split_join sep parts :
  parts <> [] ->
  Forall (fun p => free_of sep p = true) parts ->
  split sep (join (String sep EmptyString) parts) = parts.
Proof.
  induction parts as [|p rest IH]; [congruence|].
  intros _ Hall. inversion Hall as [|? ? Hp Hrest]; subst.
  destruct rest as [|p' rest'].
  - simpl. now apply split_free.
  - change (join (String sep EmptyString) (p :: p' :: rest'))
      with (p +++ String sep (join (String sep EmptyString) (p' :: rest'))).
    rewrite split_append, (split_free _ _ Hp), IH; [reflexivity|discriminate|assumption].
Qed.

(** *** Characters *)

Lemma chars_ascii a s :
  (byte a <? 128)%N = true ->
  chars (String a s) = (byte a, String a EmptyString) :: chars s.
Proof. intros H. cbn [chars]. now rewrite H. Qed.

(** How [chars] goes on: it takes a first character, one byte below 128
    under its own value or some bytes above 127, and cuts what is left. *)
Lemma chars_step a s :
  exists cp chunk rest,
    String a s = chunk +++ rest /\
    chars (String a s) = (cp, chunk) :: chars rest /\
    (String.length rest <= String.length s)%nat /\
    ((chunk = String a EmptyString /\ (byte a < 128)%N /\ cp = byte a)
     \/ (high_bytes chunk = true /\ chunk <> EmptyString)).
Proof.
  assert (Hhigh : forall x, (x <? 128)%N = false -> (128 <=? x)%N = true).
  { intros x H. apply N.ltb_ge in H. now apply N.leb_le. }
  assert (Hc : forall x, continuation x = true -> (128 <=? x)%N = true).
  { intros x H. unfold continuation, between in H.
    now apply andb_prop in H as [H _]. }
  assert (Halone :
    (byte a <? 128)%N = false ->
    exists cp chunk rest,
      String a s = chunk +++ rest /\
      (escaped (byte a), String a EmptyString) :: chars s
      = (cp, chunk) :: chars rest /\
      (String.length rest <= String.length s)%nat /\
      ((chunk = String a EmptyString /\ (byte a < 128)%N /\ cp = byte a)
       \/ (high_bytes chunk = true /\ chunk <> EmptyString))).
  { intros Ha. exists (escaped (byte a)), (String a EmptyString), s.
    repeat split; [lia|]. right. split; [|discriminate].
    cbn [high_bytes]. now rewrite (Hhigh _ Ha). }
  cbn [chars]. destruct (byte a <? 128)%N eqn:Ha.
  - exists (byte a), (String a EmptyString), s. repeat split; [lia|].
    left. repeat split. now apply N.ltb_lt.
  - destruct s as [|b s2]; [exact (Halone eq_refl)|].
    destruct (two_bytes (byte a) (byte b)) eqn:H2.
    { exists (code2 (byte a) (byte b)), (String a (String b EmptyString)), s2.
      repeat split; [simpl; lia|]. right. split; [|discriminate].
      unfold two_bytes in H2. apply andb_prop in H2 as [_ Hb].
      cbn [high_bytes]. now rewrite (Hhigh _ Ha), (Hc _ Hb). }
    destruct s2 as [|c s3]; [exact (Halone eq_refl)|].
    destruct (three_bytes (byte a) (byte b) (byte c)) eqn:H3.
    { exists (code3 (byte a) (byte b) (byte c)),
        (String a (String b (String c EmptyString))), s3.
      repeat split; [simpl; lia|]. right. split; [|discriminate].
      unfold three_bytes in H3. apply andb_prop in H3 as [Hb Hcc].
      assert (Hb' : (128 <=? byte b)%N = true).
      { unfold continuation, between in *.
        repeat (apply orb_prop in Hb as [Hb|Hb]);
          apply andb_prop in Hb as [_ Hb];
          apply andb_prop in Hb as [Hb _];
          apply N.leb_le in Hb; apply N.leb_le; lia. }
      cbn [high_bytes]. now rewrite (Hhigh _ Ha), Hb', (Hc _ Hcc). }
    destruct s3 as [|d s4]; [exact (Halone eq_refl)|].
    destruct (four_bytes (byte a) (byte b) (byte c) (byte d)) eqn:H4;
      [|exact (Halone eq_refl)].
    exists (code4 (byte a) (byte b) (byte c) (byte d)),
      (String a (String b (String c (String d EmptyString)))), s4.
    repeat split; [simpl; lia|]. right. split; [|discriminate].
    unfold four_bytes in H4. apply andb_prop in H4 as [H4 Hd].
    apply andb_prop in H4 as [Hb Hcc].
    assert (Hb' : (128 <=? byte b)%N = true).
    { unfold continuation, between in *.
      repeat (apply orb_prop in Hb as [Hb|Hb]);
        apply andb_prop in Hb as [_ Hb];
        apply andb_prop in Hb as [Hb _];
        apply N.leb_le in Hb; apply N.leb_le; lia. }
    cbn [high_bytes]. now rewrite (Hhigh _ Ha), Hb', (Hc _ Hcc), (Hc _ Hd).
Qed.

(** Induction along the characters of a string. *)
Lemma chars_induction (P : string -> Prop) :
  P EmptyString ->
  (forall a s cp chunk rest,
     String a s = chunk +++ rest ->
     chars (String a s) = (cp, chunk) :: chars rest ->
     (chunk = String a EmptyString /\ (byte a < 128)%N /\ cp = byte a)
     \/ (high_bytes chunk = true /\ chunk <> EmptyString) ->
     P rest -> P (String a s)) ->
  forall s, P s.
Proof.
  intros Hnil Hstep s.
  remember (String.length s) as n eqn:Hn. revert s Hn.
  induction n as [n IH] using lt_wf_ind. intros [|a s] Hn; [exact Hnil|].
  destruct (chars_step a s) as (cp & chunk & rest & Hs & Hc & Hlen & Hshape).
  apply (Hstep a s cp chunk rest Hs Hc Hshape).
  apply (IH (String.length rest)); [simpl in Hn; lia|reflexivity].
Qed.

Lemma unchars_chars s : unchars (chars s) = s.
Proof.
  induction s as [|a s cp chunk rest Hs Hc _ IH] using chars_induction;
    [reflexivity|].
  rewrite Hc. cbn [unchars fold_right snd]. fold (unchars (chars rest)).
  now rewrite IH.
Qed.

Lemma chars_nil s : chars s = [] -> s = EmptyString.
Proof.
  intros H. rewrite <- (unchars_chars s). now rewrite H.
Qed.

Lemma free_of_high sep chunk :
  (byte sep < 128)%N -> high_bytes chunk = true -> free_of sep chunk = true.
Proof.
  intros Hsep. induction chunk as [|a rest IH]; [reflexivity|].
  cbn [high_bytes free_of]. intros H. apply andb_prop in H as [Ha Hr].
  rewrite (IH Hr), andb_true_r. apply negb_true_iff.
  destruct (Ascii.eqb_spec a sep) as [->|_]; [|reflexivity].
  apply N.leb_le in Ha. lia.
Qed.

Lemma free_of_append sep a b :
  free_of sep (a +++ b) = free_of sep a && free_of sep b.
Proof.
  induction a as [|c a IH]; [reflexivity|].
  cbn [String.append free_of]. now rewrite IH, andb_assoc.
Qed.

(** A string whose characters are all digits holds no dot. *)
Lemma digits_free_of_dot s :
  forallb (fun c => is_digit (fst c)) (chars s) = true ->
  free_of "." s = true.
Proof.
  induction s as [|a s cp chunk rest Hs Hc Hshape IH] using chars_induction;
    [reflexivity|].
  rewrite Hc, Hs. cbn [forallb fst]. intros H.
  apply andb_prop in H as [Hcp Hrest].
  rewrite free_of_append, (IH Hrest), andb_true_r.
  destruct Hshape as [(-> & Ha & ->)|[Hhigh _]].
  - cbn [free_of]. rewrite andb_true_r. apply negb_true_iff.
    destruct (Ascii.eqb_spec a ".") as [->|_]; [|reflexivity].
    vm_compute in Hcp. discriminate.
  - apply free_of_high; [reflexivity|exact Hhigh].
Qed.

Lemma isdigit_free_of_dot s : isdigit s = true -> free_of "." s = true.
Proof.
  unfold isdigit. intros H. apply digits_free_of_dot.
  destruct (chars s); [discriminate|exact H].
Qed.

(** *** Decimal numerals *)

Ltac known_digit :=
  try rewrite chars_ascii by reflexivity;
  repeat match goal with
         | |- context [is_digit (byte ?c)] =>
             let v := eval vm_compute in (is_digit (byte c)) in
             change (is_digit (byte c)) with v
         | |- context [decimal_value (byte ?c)] =>
             let v := eval vm_compute in (decimal_value (byte c)) in
             change (decimal_value (byte c)) with v
         end.

Lemma digits_of_uint d :
  forallb (fun c => is_digit (fst c)) (chars (NilEmpty.string_of_uint d))
  = true.
Proof.
  induction d; cbn [NilEmpty.string_of_uint]; [reflexivity|..];
    known_digit; cbn [forallb fst]; known_digit; exact IHd.
Qed.

Lemma free_of_dot_of_uint d : free_of "." (NilEmpty.string_of_uint d) = true.
Proof. induction d; simpl; auto. Qed.

Lemma int_of_uint d : forall acc,
  fold_left int_step (chars (NilEmpty.string_of_uint d))
            (Some (Z.of_nat acc))
  = Some (Z.of_nat (Nat.of_uint_acc d acc)).
Proof.
  induction d; intros acc;
    cbn [NilEmpty.string_of_uint Nat.of_uint_acc]; [reflexivity|..];
    known_digit; cbn [fold_left]; unfold int_step at 2; cbn [fst];
    known_digit; rewrite <- IHd; do 3 f_equal;
    rewrite Nat.tail_mul_spec; lia.
Qed.

Lemma chars_of_uint_not_nil d :
  d <> Decimal.Nil -> chars (NilEmpty.string_of_uint d) <> [].
Proof.
  destruct d; [congruence|..]; intros _; cbn [NilEmpty.string_of_uint];
    rewrite chars_ascii by reflexivity; discriminate.
Qed.

Lemma isdigit_of_uint d :
  d <> Decimal.Nil -> isdigit (NilEmpty.string_of_uint d) = true.
Proof.
  intros Hne. unfold isdigit.
  pose proof (chars_of_uint_not_nil _ Hne) as Hc.
  pose proof (digits_of_uint d) as Hd.
  destruct (chars (NilEmpty.string_of_uint d)); [congruence|exact Hd].
Qed.

Lemma int_of_uint_string d :
  d <> Decimal.Nil ->
  int (NilEmpty.string_of_uint d) = Some (Z.of_nat (Nat.of_uint d)).
Proof.
  intros Hne. unfold int, Nat.of_uint.
  pose proof (chars_of_uint_not_nil _ Hne) as Hc.
  pose proof (int_of_uint d 0) as Hv.
  destruct (chars (NilEmpty.string_of_uint d)); [congruence|exact Hv].
Qed.

Lemma isdigit_str i : isdigit (str i) = true.
Proof.
  unfold str, NilZero.string_of_uint.
  destruct (Nat.to_uint i) eqn:E; try reflexivity;
    apply isdigit_of_uint; discriminate.
Qed.

Lemma int_str i : int (str i) = Some (Z.of_nat i).
Proof.
  unfold str, NilZero.string_of_uint.
  rewrite <- (DecimalNat.Unsigned.of_to i) at 2.
  destruct (Nat.to_uint i) eqn:E; try reflexivity;
    apply int_of_uint_string; discriminate.
Qed.

Lemma free_of_dot_str i : free_of "." (str i) = true.
Proof.
  unfold str, NilZero.string_of_uint.
  destruct (Nat.to_uint i) eqn:E; try reflexivity;
    rewrite <- E; apply free_of_dot_of_uint.
Qed.

End StrFacts.

(** ** The resolver *)

Section ReadOnly.

Context {A B : Type}.

Lemma read_only_ret (a : A) : read_only (ret a).
Proof. now exists (inr a). Qed.

Lemma read_only_raise (e : exc) : read_only (@raise A e).
Proof. now exists (inl e). Qed.

Lemma read_only_bind (m : M A) (k : A -> M B) :
  read_only m -> (forall a, read_only (k a)) -> read_only (bind m k).
Proof.
  intros [r Hm] Hk. destruct r as [e|a].
  - exists (inl e). intros w. unfold bind. now rewrite Hm.
  - destruct (Hk a) as [r' Hr']. exists r'. intros w. unfold bind.
    now rewrite Hm.
Qed.

End ReadOnly.

Lemma read_only_list_getitem {A} (l : list A) idx : read_only (list_getitem l idx).
Proof.
  unfold list_getitem.
  destruct (_ || _); [apply read_only_raise|].
  destruct (nth_error _ _); [apply read_only_ret|apply read_only_raise].
Qed.

Lemma read_only_step current part : read_only (get_nested_step current part).
Proof.
  unfold get_nested_step. destruct (Str.isdigit part).
  - destruct (Str.int part) as [value|]; [|apply read_only_raise].
    apply read_only_bind.
    + destruct current; [apply read_only_raise|apply read_only_ret].
    + intros vs. apply read_only_list_getitem.
  - destruct current as [s|d]; simpl; [apply read_only_raise|].
    destruct (lookup part d); [apply read_only_ret|apply read_only_raise].
Qed.

Lemma read_only_parts parts : forall current,
  read_only (get_nested_parts current parts).
Proof.
  induction parts as [|part rest IH]; intros current; simpl.
  - apply read_only_ret.
  - apply read_only_bind; [apply read_only_step|exact IH].
Qed.

Lemma read_only_get_nested d path : read_only (get_nested d path).
Proof. apply read_only_parts. Qed.

(** Running the loop over [p1 ++ p2] is running it over [p1] and going
    on over [p2] from the node reached. *)
Lemma get_nested_parts_app p1 p2 : forall current w,
  get_nested_parts current (p1 ++ p2) w =
  bind (get_nested_parts current p1)
       (fun reached => get_nested_parts reached p2) w.
Proof.
  induction p1 as [|part rest IH]; intros current w; simpl.
  - reflexivity.
  - unfold bind.
    destruct (get_nested_step current part w) as [[e|next] w']; [reflexivity|].
    rewrite IH. reflexivity.
Qed.

(** *** One step from a dictionary *)

Lemma list_getitem_in_range {A} (l : list A) (i : nat) (x : A) w :
  nth_error l i = Some x ->
  list_getitem l (Z.of_nat i) w = (inr x, w).
Proof.
  intros H. unfold list_getitem.
  assert (i < List.length l)%nat by (apply nth_error_Some; congruence).
  destruct (Z.ltb_spec (Z.of_nat i) 0); [lia|].
  destruct (Z.ltb_spec (Z.of_nat i) 0); [lia|].
  destruct (Z.leb_spec (Z.of_nat (List.length l)) (Z.of_nat i)); [lia|].
  simpl. rewrite Nat2Z.id, H. reflexivity.
Qed.

Lemma list_getitem_above {A} (l : list A) (idx : Z) w :
  Z.of_nat (List.length l) <= idx ->
  list_getitem l idx w = (@inl exc A IndexError, w).
Proof.
  intros H. unfold list_getitem.
  destruct (Z.ltb_spec idx 0); [lia|].
  destruct (Z.ltb_spec idx 0); [lia|].
  destruct (Z.leb_spec (Z.of_nat (List.length l)) idx); [|lia].
  reflexivity.
Qed.

(** Index [-1] is the last element of a list that has one. *)
Lemma list_getitem_minus_one {A} (l : list A) (x : A) w :
  list_getitem (l ++ [x]) (-1) w = (inr x, w).
Proof.
  unfold list_getitem. rewrite length_app.
  change (List.length [x]) with 1%nat.
  change (-1 <? 0) with true. cbv iota.
  replace (-1 + Z.of_nat (List.length l + 1)) with (Z.of_nat (List.length l)) by lia.
  destruct (Z.ltb_spec (Z.of_nat (List.length l)) 0); [lia|].
  destruct (Z.leb_spec (Z.of_nat (List.length l + 1)) (Z.of_nat (List.length l))); [lia|].
  cbv [orb]. rewrite Nat2Z.id, nth_error_app2, Nat.sub_diag by lia. reflexivity.
Qed.

Lemma step_position (items : dict) (n : nat) k v w :
  nth_error items n = Some (k, v) ->
  get_nested_step (Interior items) (Str.str (S n)) w = (inr v, w).
Proof.
  intros H. unfold get_nested_step.
  rewrite StrFacts.isdigit_str, StrFacts.int_str.
  unfold bind, values, ret.
  replace (Z.of_nat (S n) - 1) with (Z.of_nat n) by lia.
  apply list_getitem_in_range.
  rewrite nth_error_map, H. reflexivity.
Qed.

Lemma step_above (items : dict) part value w :
  Str.isdigit part = true ->
  Str.int part = Some value ->
  Z.of_nat (List.length items) < value ->
  get_nested_step (Interior items) part w = (inl IndexError, w).
Proof.
  intros Hd Hv Hgt. unfold get_nested_step. rewrite Hd, Hv.
  unfold bind, values, ret.
  apply list_getitem_above. rewrite length_map. lia.
Qed.

Lemma step_name (items : dict) part v w :
  Str.isdigit part = false ->
  lookup part items = Some v ->
  get_nested_step (Interior items) part w = (inr v, w).
Proof.
  intros Hd Hl. unfold get_nested_step. rewrite Hd. simpl. now rewrite Hl.
Qed.

(** *** One step from a snippet text *)

Lemma step_leaf payload part w :
  get_nested_step (Leaf payload) part w = (inl (text_error part), w).
Proof.
  unfold get_nested_step, text_error. destruct (Str.isdigit part).
  - now destruct (Str.int part).
  - reflexivity.
Qed.

Lemma text_error_kind part :
  (text_error part = ValueError
   <-> Str.isdigit part = true /\ Str.int part = None) /\
  (text_error part = ValueError
   \/ kind_of (text_error part) = Some NotContainer).
Proof.
  unfold text_error. destruct (Str.isdigit part).
  - destruct (Str.int part) as [value|].
    + split; [|now right]. split; [discriminate|]. intros [_ H]. discriminate.
    + split; [|now left]. now split.
  - split; [|now right]. split; [discriminate|]. intros [H _]. discriminate.
Qed.

(** Index zero: [int(part) - 1] is [-1], the last child. *)
Lemma step_zero (items : dict) k v part w :
  Str.isdigit part = true ->
  Str.int part = Some 0 ->
  get_nested_step (Interior (items ++ [(k, v)])) part w = (inr v, w).
Proof.
  intros Hd Hz. unfold get_nested_step. rewrite Hd, Hz.
  unfold bind, values, ret. rewrite map_app. simpl map.
  apply list_getitem_minus_one.
Qed.

(** *** Well-formed dictionaries *)

Lemma well_formed_Interior items :
  well_formed (Interior items) <->
  NoDup (keys items) /\ Forall (fun kv => well_formed (snd kv)) items.
Proof.
  simpl. split; intros [Hnd Hall]; split; try assumption; clear Hnd.
  - induction items as [|[k v] rest IH]; constructor; [apply Hall|apply IH, Hall].
  - induction Hall as [|[k v] rest Hv _ IH]; simpl; auto.
Qed.

Lemma well_formed_child items n k v :
  well_formed (Interior items) ->
  nth_error items n = Some (k, v) ->
  well_formed v.
Proof.
  intros Hwf Hn. apply well_formed_Interior in Hwf as [_ Hall].
  rewrite Forall_forall in Hall.
  apply (Hall (k, v)). eapply nth_error_In, Hn.
Qed.

Lemma lookup_at_position items : forall n k v,
  NoDup (keys items) ->
  nth_error items n = Some (k, v) ->
  lookup k items = Some v.
Proof.
  induction items as [|[k' v'] rest IH]; intros n k v Hnd Hn.
  - destruct n; discriminate.
  - inversion Hnd as [|? ? Hnotin Hnd']; subst.
    destruct n as [|n]; simpl in *.
    + injection Hn as -> ->. now rewrite String.eqb_refl.
    + destruct (String.eqb_spec k k') as [->|_].
      * exfalso. apply Hnotin.
        change k' with (fst (k', v)). apply in_map.
        eapply nth_error_In, Hn.
      * eapply IH; eassumption.
Qed.

(** *** Walking a chain *)

Lemma located_numeric root chain target :
  located root chain target ->
  forall w,
    get_nested_parts root (map (fun c => Str.str (fst c)) chain) w
    = (inr target, w).
Proof.
  induction 1 as [v|items n k v chain target Hn _ IH]; intros w; simpl.
  - reflexivity.
  - unfold bind. rewrite (step_position _ _ _ _ _ Hn). apply IH.
Qed.

Lemma located_names root chain target :
  located root chain target ->
  well_formed root ->
  Forall (fun c => plain_name (snd c) = true) chain ->
  forall w, get_nested_parts root (map snd chain) w = (inr target, w).
Proof.
  induction 1 as [v|items n k v chain target Hn _ IH]; intros Hwf Hplain w; simpl.
  - reflexivity.
  - inversion Hplain as [|? ? Hk Hrest]; subst. simpl in Hk.
    apply andb_prop in Hk as [Hk _]. apply negb_true_iff in Hk.
    unfold bind. rewrite (step_name items k v); try assumption.
    + apply IH; [eapply well_formed_child; eassumption|assumption].
    + apply well_formed_Interior in Hwf as [Hnd _].
      eapply lookup_at_position; eassumption.
Qed.

Lemma located_leaf_chain items chain payload :
  located (Interior items) chain (Leaf payload) -> chain <> [].
Proof. intros H. inversion H; discriminate. Qed.

(** *** Claims about the resolver *)

(** C1 (the code departs from it).  Claimed: a digit-only segment whose
    value is below 1 or above the number of children fails with
    IndexOutOfRange.  On [SNIPPETS], which has nine categories, the segment
    [10] raises [IndexError] as claimed, but the segment [0] returns the
    last category and the path [1.0] the last snippet of the first
    category: [int(part) - 1] is then [-1], which indexes a Python list
    from its end. *)
Theorem segment_zero_selects_last_child :
  forall w,
    get_nested SNIPPETS "0" w = (inr (Interior []), w) /\
    get_nested SNIPPETS "1.0" w
      = (inr (Leaf snippet_argparse_with_subcommands), w) /\
    get_nested SNIPPETS "10" w = (inl IndexError, w).
Proof. intros w. repeat split; vm_compute; reflexivity. Qed.

(** C4 (as amended).  In a catalog whose dictionaries hold each name once,
    the dotted path of the position numbers of a snippet resolves to that
    snippet; and when no name on the way is made of digits only or holds a
    dot, the dotted path of the names resolves to the same snippet. *)
Theorem leaf_round_trip items chain payload w :
  well_formed (Interior items) ->
  located (Interior items) chain (Leaf payload) ->
  get_nested (Interior items) (numeric_path chain) w = (inr (Leaf payload), w) /\
  (Forall (fun c => plain_name (snd c) = true) chain ->
   get_nested (Interior items) (name_path chain) w = (inr (Leaf payload), w)).
Proof.
  intros Hwf Hloc.
  pose proof (located_leaf_chain _ _ _ Hloc) as Hne.
  split; [|intros Hplain]; unfold get_nested, numeric_path, name_path.
  - rewrite StrFacts.split_join.
    + now apply located_numeric.
    + destruct chain; [congruence|discriminate].
    + apply Forall_map, Forall_forall. intros c _. apply StrFacts.free_of_dot_str.
  - rewrite StrFacts.split_join.
    + now apply located_names.
    + destruct chain; [congruence|discriminate].
    + apply Forall_map. eapply Forall_impl; [|exact Hplain].
      intros c Hc. unfold plain_name in Hc. now apply andb_prop in Hc.
Qed.

Lemma example_catalog_well_formed : well_formed example_catalog.
Proof.
  apply well_formed_Interior. split.
  - repeat constructor; simpl; intuition discriminate.
  - repeat constructor; simpl; try (intros []); intuition discriminate.
Qed.

Lemma example_leaf_located :
  located example_catalog [(1%nat, "A"%string); (1%nat, "x1"%string)]
          (Leaf "  hello  ").
Proof. repeat econstructor. Qed.

Lemma leaf_round_trip_witness :
  get_nested example_catalog "1.1" (world0 [])
    = (inr (Leaf "  hello  "), world0 []) /\
  get_nested example_catalog "A.x1" (world0 [])
    = (inr (Leaf "  hello  "), world0 []).
Proof.
  destruct (leaf_round_trip _ _ _ (world0 [])
              example_catalog_well_formed example_leaf_located) as [Hnum Hname].
  split; [exact Hnum|].
  apply Hname. repeat constructor.
Defined.

(** C4 as claimed fails: in [digit_named_catalog] the snippet [a] stands
    first under the name [2], and the path made of its name resolves to
    the snippet [b]. *)
Lemma name_path_resolves_elsewhere :
  well_formed digit_named_catalog /\
  located digit_named_catalog [(1%nat, "2"%string)] (Leaf "a") /\
  get_nested digit_named_catalog (name_path [(1%nat, "2"%string)]) (world0 [])
    = (inr (Leaf "b"), world0 []).
Proof.
  split; [|split].
  - apply well_formed_Interior. split.
    + repeat constructor; simpl; intuition discriminate.
    + repeat constructor.
  - repeat econstructor.
  - reflexivity.
Qed.

(** On the table of the program itself, whose names hold neither a dot nor
    only digits, both ways of writing a path lead to the same snippet. *)
Example resolve_by_numbers_and_names :
  forall w,
    get_nested SNIPPETS "2.1" w
      = (inr (Leaf snippet_minimal_Flask_application), w) /\
    get_nested SNIPPETS "Flask – Basic Setup.minimal Flask application" w
      = (inr (Leaf snippet_minimal_Flask_application), w).
Proof. intros w. split; vm_compute; reflexivity. Qed.

(** C6, as the code has it.  When a path resolves to a snippet text, every
    longer path that continues it after a dot fails and returns no node.
    The exception is decided by the segment that follows the snippet: it is
    [ValueError] exactly when that segment passes [isdigit] and [int]
    rejects it, and of the NotContainer kind ([AttributeError] or
    [TypeError]) in every other case. *)
Theorem path_beyond_leaf_fails root path more payload w :
  get_nested root path w = (inr (Leaf payload), w) ->
  exists e,
    get_nested root (path +++ "." +++ more) w = (inl e, w) /\
    e = text_error (next_segment more) /\
    (e = ValueError
     <-> Str.isdigit (next_segment more) = true
         /\ Str.int (next_segment more) = None) /\
    (e = ValueError \/ kind_of e = Some NotContainer).
Proof.
  unfold get_nested, next_segment. intros H.
  change ("." +++ more) with (String "." more).
  rewrite StrFacts.split_append, get_nested_parts_app. unfold bind at 1.
  rewrite H.
  pose proof (StrFacts.split_not_nil "." more) as Hne.
  destruct (Str.split "." more) as [|part rest]; [contradiction|].
  cbn [hd]. exists (text_error part).
  destruct (text_error_kind part) as [Hiff Hkind].
  split; [|split; [reflexivity|split; assumption]].
  cbn [get_nested_parts]. unfold bind.
  now rewrite (step_leaf payload part w).
Qed.

Lemma path_beyond_leaf_fails_witness :
  exists e,
    get_nested example_catalog "1.1.1" (world0 []) = (inl e, world0 []) /\
    e = text_error (next_segment "1") /\
    (e = ValueError
     <-> Str.isdigit (next_segment "1") = true
         /\ Str.int (next_segment "1") = None) /\
    (e = ValueError \/ kind_of e = Some NotContainer).
Proof.
  apply (path_beyond_leaf_fails example_catalog "1.1" "1" "  hello  "
           (world0 [])).
  vm_compute. reflexivity.
Defined.

(** C6, as the specification words it, does not hold of every path: a
    segment made of a digit that is no decimal digit passes [isdigit], and
    [int] raises [ValueError] before the snippet text is asked for its
    values.  That exception is neither [AttributeError] nor [TypeError]. *)
Lemma superscript_after_text_raises_ValueError :
  get_nested example_catalog "1.1" (world0 [])
    = (inr (Leaf "  hello  "), world0 []) /\
  get_nested example_catalog ("1.1" +++ "." +++ "²") (world0 [])
    = (inl ValueError, world0 []) /\
  kind_of ValueError <> Some NotContainer.
Proof.
  split; [|split].
  - vm_compute. reflexivity.
  - vm_compute. reflexivity.
  - discriminate.
Qed.

(** C9.  Resolution reads only: whatever the catalog and the path, and
    whether it returns a node or raises, [get_nested] hands back the world
    (input, output, clipboard) exactly as it received it, and its result
    does not depend on that world.  The catalog itself is a value that no
    step of the function updates. *)
Theorem get_nested_changes_nothing d path :
  exists r, forall w, get_nested d path w = (r, w).
Proof. apply read_only_get_nested. Qed.

(** ** The renderer *)

Lemma node_induction (P : node -> Prop) :
  (forall payload, P (Leaf payload)) ->
  (forall items, Forall (fun kv => P (snd kv)) items -> P (Interior items)) ->
  forall v, P v.
Proof.
  intros HL HI. fix IH 1. intros [payload|items].
  - apply HL.
  - apply HI. induction items as [|[k v] rest IHrest]; constructor.
    + apply IH.
    + apply IHrest.
Qed.

Lemma append_out_nil w : append_out w [] = w.
Proof. destruct w. unfold append_out. simpl. now rewrite app_nil_r. Qed.

Lemma append_out_app w a b :
  append_out (append_out w a) b = append_out w (a ++ b).
Proof. unfold append_out. simpl. now rewrite app_assoc. Qed.

Lemma print_menu_Interior items level prefix :
  print_menu (Interior items) level prefix
  = print_menu_items level prefix items 1.
Proof. reflexivity. Qed.

Lemma print_menu_items_run level prefix items :
  Forall (fun kv => runs_as_rendered (snd kv)) items ->
  forall i w,
    print_menu_items level prefix items i w
    = (inr tt,
       append_out w (flat_map (child_lines level prefix) (enumerate items i))).
Proof.
  induction 1 as [|[k v] rest Hv _ IH]; intros i w.
  - simpl. unfold ret. now rewrite append_out_nil.
  - change (print_menu_items level prefix ((k, v) :: rest) i)
      with ((if isinstance_dict v then
               print (indent level +++ prefix +++ Str.str i +++ ") " +++ k +++ "/") ;;
               print_menu v (S level) (prefix +++ Str.str i +++ ".")
             else
               print (indent level +++ prefix +++ Str.str i +++ ") " +++ k)) ;;
            print_menu_items level prefix rest (S i)).
    change (enumerate ((k, v) :: rest) i)
      with ((i, (k, v)) :: enumerate rest (S i)).
    cbn [flat_map]. rewrite <- append_out_app.
    destruct v as [payload|sub]; cbn [isinstance_dict child_lines]; unfold bind.
    + unfold print at 1. apply IH.
    + unfold print at 1. simpl in Hv. rewrite (Hv (S level)). cbn [isinstance_dict].
      rewrite IH. f_equal. unfold append_out. simpl.
      now rewrite <- !app_assoc.
Qed.

Lemma print_menu_run : forall v, runs_as_rendered v.
Proof.
  induction v as [payload|items IH] using node_induction;
    intros level prefix w.
  - unfold rendered. simpl. unfold raise. now rewrite append_out_nil.
  - unfold rendered. rewrite print_menu_Interior.
    rewrite !(print_menu_items_run _ _ _ IH). reflexivity.
Qed.

Lemma rendered_Interior items level prefix :
  rendered (Interior items) level prefix
  = flat_map (child_lines level prefix) (enumerate items 1).
Proof.
  unfold rendered. rewrite print_menu_Interior, print_menu_items_run.
  - reflexivity.
  - apply Forall_forall. intros kv _. apply print_menu_run.
Qed.

Lemma enumerate_nth {A} (l : list A) : forall start n x,
  nth_error l n = Some x ->
  nth_error (enumerate l start) n = Some ((start + n)%nat, x).
Proof.
  induction l as [|a l IH]; intros start n x H.
  - destruct n; discriminate.
  - destruct n as [|n]; simpl in *.
    + injection H as ->. now rewrite Nat.add_0_r.
    + change (nth_error (enumerate l (S start)) n = Some ((start + S n)%nat, x)).
      rewrite (IH (S start) n x H). f_equal. f_equal. lia.
Qed.

Lemma split_at_nth {A} (l : list A) : forall n x,
  nth_error l n = Some x ->
  l = firstn n l ++ x :: skipn (S n) l.
Proof.
  induction l as [|a l IH]; intros n x H.
  - destruct n; discriminate.
  - destruct n as [|n]; simpl in *.
    + now injection H as ->.
    + f_equal. now apply IH.
Qed.

Lemma append_empty_r s : s +++ EmptyString = s.
Proof. induction s as [|c s IH]; simpl; [reflexivity|now rewrite IH]. Qed.

(** *** Claims about the renderer *)

(** C3.  Rendering a dictionary at depth [level] under [prefix] always
    succeeds and writes, for each child in insertion order with its
    1-based number [i]: for a category, the line made of two spaces times
    [level], [prefix], [i], a closing parenthesis and a space, the name and
    a slash, followed by the rendering of the category at depth
    [level + 1] under [prefix] extended by [i] and a dot; for a snippet,
    the same line without the slash and nothing more. *)
Theorem print_menu_emits items level prefix :
  (forall w,
     print_menu (Interior items) level prefix w
     = (inr tt, append_out w (rendered (Interior items) level prefix))) /\
  rendered (Interior items) level prefix
  = flat_map
      (fun numbered : nat * (string * node) =>
         let '(i, (k, v)) := numbered in
         match v with
         | Interior _ =>
             Line (Str.times "  " level +++ prefix +++ Str.str i +++ ") "
                   +++ k +++ "/")
             :: rendered v (S level) (prefix +++ Str.str i +++ ".")
         | Leaf _ =>
             [Line (Str.times "  " level +++ prefix +++ Str.str i +++ ") "
                    +++ k)]
         end)
      (enumerate items 1).
Proof.
  split.
  - intros w. apply (print_menu_run (Interior items)).
  - apply rendered_Interior.
Qed.

(** C5.  In every dictionary, the child that the renderer shows under the
    number [N] is the child that the resolver returns for the segment [N]:
    the rendering is the lines of the children before it, then the lines
    of that child, headed by the line that bears [N] and its name, then
    the lines of the children after it; and resolving [N] from the
    dictionary returns the value stored under that name. *)
Theorem numbered_line_matches_resolver items level prefix n k v w :
  nth_error items n = Some (k, v) ->
  rendered (Interior items) level prefix
  = flat_map (child_lines level prefix) (firstn n (enumerate items 1))
    ++ child_lines level prefix (S n, (k, v))
    ++ flat_map (child_lines level prefix) (skipn (S n) (enumerate items 1))
  /\ hd_error (child_lines level prefix (S n, (k, v)))
     = Some (Line (indent level +++ prefix +++ Str.str (S n) +++ ") " +++ k
                   +++ (if isinstance_dict v then "/" else EmptyString)))
  /\ get_nested (Interior items) (Str.str (S n)) w = (inr v, w).
Proof.
  intros H. split; [|split].
  - rewrite rendered_Interior.
    rewrite (split_at_nth _ _ _ (enumerate_nth items 1 n _ H)) at 1.
    rewrite flat_map_app. reflexivity.
  - destruct v as [payload|sub]; cbn [child_lines isinstance_dict hd_error].
    + now rewrite append_empty_r.
    + reflexivity.
  - unfold get_nested.
    rewrite (StrFacts.split_free _ _ (StrFacts.free_of_dot_str (S n))).
    simpl. unfold bind. now rewrite (step_position _ _ _ _ _ H).
Qed.

Lemma numbered_line_matches_resolver_witness :
  rendered example_catalog 0 EmptyString
  = [] ++ [Line "1) A/"; Line "  1.1) x1"] ++ [Line "2) B/"]
  /\ get_nested example_catalog "1" (world0 [])
     = (inr (Interior [("x1"%string, Leaf "  hello  ")]), world0 []).
Proof.
  destruct (numbered_line_matches_resolver
              [("A"%string, Interior [("x1"%string, Leaf "  hello  ")]);
               ("B"%string, Interior [])]
              0 EmptyString 0 "A"%string
              (Interior [("x1"%string, Leaf "  hello  ")])
              (world0 []) eq_refl) as [Hlines [_ Hres]].
  split; [exact Hlines|exact Hres].
Defined.

(** C8.  Rendering is repeatable: two successive calls of [print_menu] on
    the same catalog, level and prefix write the same sequence of lines,
    one after the other, end the same way, and leave the table as it
    was. *)
Theorem print_menu_repeatable d level prefix w :
  let first := print_menu d level prefix w in
  let second := print_menu d level prefix (snd first) in
  exists lines,
    stdout (snd first) = stdout w ++ lines /\
    stdout (snd second) = stdout (snd first) ++ lines /\
    fst second = fst first /\
    table (snd second) = table w.
Proof.
  cbv zeta. rewrite !(print_menu_run d). simpl.
  exists (rendered d level prefix). repeat split.
Qed.

(** ** Stripping *)

Module StripFacts.
Import Str.

Lemma append_assoc a b c : (a +++ b) +++ c = a +++ b +++ c.
Proof. induction a as [|x a IH]; simpl; [reflexivity|now rewrite IH]. Qed.

Lemma unchars_app a b : unchars (a ++ b) = unchars a +++ unchars b.
Proof.
  induction a as [|c a IH]; [reflexivity|].
  change (unchars ((c :: a) ++ b)) with (snd c +++ unchars (a ++ b)).
  change (unchars (c :: a)) with (snd c +++ unchars a).
  now rewrite IH, append_assoc.
Qed.

Lemma drop_space_splits cs :
  exists lead, cs = lead ++ drop_space cs /\ forallb space_char lead = true.
Proof.
  induction cs as [|c cs [lead [Hs Hl]]]; cbn [drop_space].
  - now exists [].
  - destruct (space_char c) eqn:Hc.
    + exists (c :: lead). cbn [forallb app]. rewrite Hc, Hl.
      split; [now f_equal|reflexivity].
    + now exists [].
Qed.

Lemma drop_space_starts cs : starts_with_space (drop_space cs) = false.
Proof.
  induction cs as [|c cs IH]; cbn [drop_space]; [reflexivity|].
  destruct (space_char c) eqn:Hc; [exact IH|exact Hc].
Qed.

Lemma forallb_rev (f : char -> bool) l :
  forallb f l = true -> forallb f (rev l) = true.
Proof.
  rewrite !forallb_forall. intros H x Hx. apply H. now apply in_rev.
Qed.

(** Stripping a list of characters removes white space at both ends and
    nothing else. *)
Lemma strip_chars_splits cs :
  exists lead trail,
    cs = lead ++ strip_chars cs ++ trail /\
    forallb space_char lead = true /\ forallb space_char trail = true /\
    starts_with_space (strip_chars cs) = false /\
    ends_with_space (strip_chars cs) = false.
Proof.
  destruct (drop_space_splits cs) as [lead [Hs Hl]].
  destruct (drop_space_splits (rev (drop_space cs))) as [back [Hr Hb]].
  assert (Hm : drop_space cs = strip_chars cs ++ rev back).
  { unfold strip_chars. rewrite <- rev_app_distr, <- Hr.
    now rewrite rev_involutive. }
  exists lead, (rev back). repeat split.
  - now rewrite <- Hm.
  - exact Hl.
  - now apply forallb_rev.
  - pose proof (drop_space_starts cs) as Hstart. rewrite Hm in Hstart.
    destruct (strip_chars cs); [reflexivity|exact Hstart].
  - unfold ends_with_space, strip_chars. rewrite rev_involutive.
    apply drop_space_starts.
Qed.

(** [strip] removes white space characters at both ends and nothing else:
    the characters of the string are a run of white space, the characters
    kept, and a run of white space; the result is the bytes of the
    characters kept. *)
Lemma strip_splits s :
  exists lead kept trail,
    chars s = lead ++ kept ++ trail /\
    forallb space_char lead = true /\ forallb space_char trail = true /\
    starts_with_space kept = false /\ ends_with_space kept = false /\
    strip s = unchars kept /\
    s = unchars lead +++ strip s +++ unchars trail.
Proof.
  destruct (strip_chars_splits (chars s))
    as (lead & trail & Hs & Hl & Ht & Hstart & Hend).
  exists lead, (strip_chars (chars s)), trail.
  repeat split; try assumption.
  unfold strip. rewrite <- !unchars_app, <- Hs.
  symmetry. apply StrFacts.unchars_chars.
Qed.

End StripFacts.

(** ** The session *)

Lemma get_nested_from_text payload path w :
  exists e, get_nested (Leaf payload) path w = (inl e, w).
Proof.
  unfold get_nested.
  pose proof (StrFacts.split_not_nil "." path) as Hne.
  destruct (Str.split "." path) as [|part rest]; [contradiction|].
  cbn [get_nested_parts]. unfold bind.
  exists (text_error part). now rewrite (step_leaf payload part w).
Qed.

(** A result obtained in one world is obtained in every world. *)
Lemma get_nested_any_world d path w r :
  get_nested d path w = (r, w) ->
  forall w', get_nested d path w' = (r, w').
Proof.
  intros H w'. destruct (read_only_get_nested d path) as [r' Hr'].
  rewrite Hr' in H. injection H as ->. apply Hr'.
Qed.

Ltac session_step :=
  cbn [ret raise method_strip print input import_pyperclip pyperclip_copy
       is_ImportError append_out isinstance_dict negb andb fst snd
       table stdin stdout clipboard pyperclip_installed].

Ltac session_start w Hin Hres :=
  let items := fresh "items" in
  let Ht := fresh "Ht" in
  destruct w as [t ins out cb inst]; cbn [table stdin stdout clipboard
    pyperclip_installed] in *; subst ins;
  destruct t as [text|items];
  [ match type of Hres with
    | get_nested _ ?path ?w0 = _ =>
        destruct (get_nested_from_text text path w0) as [? Ht]
    end;
    rewrite Ht in Hres; discriminate
  | pose proof (get_nested_any_world _ _ _ _ Hres) as Hany;
    unfold main_body, bind, global_SNIPPETS, try_except; cbn [table];
    rewrite (print_menu_run (Interior items)); session_step ].

(** The pass of the loop in which a snippet is selected, up to the moment
    the snippet has been shown. *)
Lemma selected_snippet_is_shown w line rest payload :
  stdin w = line :: rest ->
  Str.among (Str.lower (Str.strip line))
            ["q"; "quit"; "exit"; EmptyString]%string = false ->
  get_nested (table w) (Str.strip line) w = (inr (Leaf payload), w) ->
  exists after,
    stdout (snd (main_body w))
    = stdout w ++ rendered (table w) 0 EmptyString
      ++ [Line EmptyString; Prompt "→ ";
          Line (nl +++ Str.times "═" 70);
          Line (Str.strip payload);
          Line (Str.times "═" 70 +++ nl)]
      ++ after.
Proof.
  intros Hin Hq Hres. session_start w Hin Hres.
  rewrite Hq, Hany. session_step.
  destruct rest as [|answer rest]; session_step.
  { rewrite <- !app_assoc. cbn [app]. eexists. reflexivity. }
  destruct (Str.among (Str.lower (Str.strip answer)) _); session_step;
    [|destruct inst; session_step];
    (destruct rest as [|again rest]; session_step;
     [|destruct (Str.among (Str.lower (Str.strip again)) _); session_step]);
    rewrite <- !app_assoc; cbn [app]; eexists; reflexivity.
Qed.

(** What the pass leaves on the clipboard, once the user has answered the
    question about copying. *)
Lemma selected_snippet_is_copied w line answer rest payload :
  stdin w = line :: answer :: rest ->
  Str.among (Str.lower (Str.strip line))
            ["q"; "quit"; "exit"; EmptyString]%string = false ->
  get_nested (table w) (Str.strip line) w = (inr (Leaf payload), w) ->
  clipboard (snd (main_body w))
  = if negb (Str.among (Str.lower (Str.strip answer)) ["n"; "no"]%string)
       && pyperclip_installed w
    then Some (Str.strip payload)
    else clipboard w.
Proof.
  intros Hin Hq Hres. session_start w Hin Hres.
  rewrite Hq, Hany. session_step.
  destruct (Str.among (Str.lower (Str.strip answer)) _); session_step;
    [|destruct inst; session_step];
    (destruct rest as [|again rest]; session_step;
     [|destruct (Str.among (Str.lower (Str.strip again)) _); session_step]);
    reflexivity.
Qed.

(** A path that resolves to a category: the first rule is printed, then
    [code.strip()] raises, outside the [try], and the pass ends there. *)
Lemma category_selection_raises w line rest sub :
  stdin w = line :: rest ->
  Str.among (Str.lower (Str.strip line))
            ["q"; "quit"; "exit"; EmptyString]%string = false ->
  get_nested (table w) (Str.strip line) w = (inr (Interior sub), w) ->
  main_body w
  = (inl AttributeError,
     mkWorld (table w) rest
             (stdout w ++ rendered (table w) 0 EmptyString
              ++ [Line EmptyString; Prompt "→ ";
                  Line (nl +++ Str.times "═" 70)])
             (clipboard w) (pyperclip_installed w)).
Proof.
  intros Hin Hq Hres. session_start w Hin Hres.
  rewrite Hq, Hany. session_step.
  rewrite <- !app_assoc. reflexivity.
Qed.

(** A path that does not resolve: the message is printed and the loop goes
    round again. *)
Lemma failed_resolution_reprompts w items line rest e :
  table w = Interior items ->
  stdin w = line :: rest ->
  Str.among (Str.lower (Str.strip line))
            ["q"; "quit"; "exit"; EmptyString]%string = false ->
  get_nested (table w) (Str.strip line) w = (inl e, w) ->
  main_body w
  = (inr Continue,
     mkWorld (table w) rest
             (stdout w ++ rendered (table w) 0 EmptyString
              ++ [Line EmptyString; Prompt "→ ";
                  Line ("Invalid selection." +++ nl)])
             (clipboard w) (pyperclip_installed w)).
Proof.
  intros Ht Hin Hq Hres.
  destruct w as [t ins out cb inst]; cbn [table stdin stdout clipboard
    pyperclip_installed] in *; subst t ins.
  pose proof (get_nested_any_world _ _ _ _ Hres) as Hany.
  unfold main_body, bind, global_SNIPPETS, try_except; cbn [table].
  rewrite (print_menu_run (Interior items)). session_step.
  rewrite Hq, Hany. session_step.
  rewrite <- !app_assoc. reflexivity.
Qed.

(** *** Claims about the session *)

(** C2 (the code departs from it).  Claimed: a path that resolves to a
    category is treated like a failed resolution, with the message
    "Invalid selection." and a new prompt.  On [SNIPPETS], the choice [1]
    resolves to the first category; [main] then prints the first rule and
    stops with the [AttributeError] of [code.strip()], which no handler
    catches: the message is never printed and the lines the user typed
    next stay unread. *)
Theorem category_selection_crashes :
  exists w',
    main 3 (session SNIPPETS ["1"; "y"; "n"]%string)
    = Some (inl AttributeError, w') /\
    stdin w' = ["y"; "n"]%string /\
    last (stdout w') (Line EmptyString) = Line (nl +++ Str.times "═" 70) /\
    existsb (fun x => match x with
                      | Line s => String.eqb s ("Invalid selection." +++ nl)
                      | Prompt _ => false
                      end) (stdout w') = false.
Proof.
  eexists. split; [vm_compute; reflexivity|].
  repeat split; vm_compute; reflexivity.
Qed.

(** C7.  When the choice resolves to a snippet, the pass writes the menu,
    the prompt, a rule, the payload stripped, and a rule; and the stripped
    payload is the payload without a leading and a trailing run of white
    space characters, itself neither starting nor ending with one: the
    characters of the payload are that run, the characters kept and that
    other run, and what is shown is the bytes of the characters kept, so
    that nothing inside is altered. *)
Theorem displayed_text_is_stripped_payload w line rest payload :
  stdin w = line :: rest ->
  Str.among (Str.lower (Str.strip line))
            ["q"; "quit"; "exit"; EmptyString]%string = false ->
  get_nested (table w) (Str.strip line) w = (inr (Leaf payload), w) ->
  (exists after,
     stdout (snd (main_body w))
     = stdout w ++ rendered (table w) 0 EmptyString
       ++ [Line EmptyString; Prompt "→ ";
           Line (nl +++ Str.times "═" 70);
           Line (Str.strip payload);
           Line (Str.times "═" 70 +++ nl)]
       ++ after) /\
  (exists lead kept trail,
     Str.chars payload = lead ++ kept ++ trail /\
     forallb Str.space_char lead = true /\
     forallb Str.space_char trail = true /\
     Str.starts_with_space kept = false /\
     Str.ends_with_space kept = false /\
     Str.strip payload = Str.unchars kept /\
     payload = Str.unchars lead +++ Str.strip payload +++ Str.unchars trail).
Proof.
  intros Hin Hq Hres. split.
  - eapply selected_snippet_is_shown; eassumption.
  - apply StripFacts.strip_splits.
Qed.

Lemma displayed_text_is_stripped_payload_witness :
  exists after,
    stdout (snd (main_body (world0 ["1.1"; "y"; "n"]%string)))
    = [] ++ [Line "1) A/"; Line "  1.1) x1"; Line "2) B/"]
      ++ [Line EmptyString; Prompt "→ ";
          Line (nl +++ Str.times "═" 70);
          Line "hello";
          Line (Str.times "═" 70 +++ nl)]
      ++ after.
Proof.
  apply (displayed_text_is_stripped_payload
           (world0 ["1.1"; "y"; "n"]%string) "1.1"
           ["y"; "n"]%string "  hello  ");
    vm_compute; reflexivity.
Defined.

(** C10.  When the choice resolves to a snippet and the user answers the
    question about copying, the text shown between the rules and the text
    handed to the clipboard are the same string, the stripped payload: the
    clipboard receives it when the answer is not [n] or [no] and
    [pyperclip] is installed, and is left as it was otherwise. *)
Theorem clipboard_text_is_displayed_text w line answer rest payload :
  stdin w = line :: answer :: rest ->
  Str.among (Str.lower (Str.strip line))
            ["q"; "quit"; "exit"; EmptyString]%string = false ->
  get_nested (table w) (Str.strip line) w = (inr (Leaf payload), w) ->
  exists shown after,
    stdout (snd (main_body w))
    = stdout w ++ rendered (table w) 0 EmptyString
      ++ [Line EmptyString; Prompt "→ ";
          Line (nl +++ Str.times "═" 70);
          Line shown;
          Line (Str.times "═" 70 +++ nl)]
      ++ after /\
    shown = Str.strip payload /\
    clipboard (snd (main_body w))
    = if negb (Str.among (Str.lower (Str.strip answer)) ["n"; "no"]%string)
         && pyperclip_installed w
      then Some shown
      else clipboard w.
Proof.
  intros Hin Hq Hres.
  destruct (selected_snippet_is_shown _ _ _ _ Hin Hq Hres) as [after Hout].
  exists (Str.strip payload), after. repeat split.
  - exact Hout.
  - eapply selected_snippet_is_copied; eassumption.
Qed.

Lemma clipboard_text_is_displayed_text_witness :
  exists shown after,
    stdout (snd (main_body (world0 ["1.1"; "y"; "n"]%string)))
    = [] ++ [Line "1) A/"; Line "  1.1) x1"; Line "2) B/"]
      ++ [Line EmptyString; Prompt "→ ";
          Line (nl +++ Str.times "═" 70);
          Line shown;
          Line (Str.times "═" 70 +++ nl)]
      ++ after /\
    shown = "hello"%string /\
    clipboard (snd (main_body (world0 ["1.1"; "y"; "n"]%string)))
    = Some shown.
Proof.
  exact (clipboard_text_is_displayed_text
           (world0 ["1.1"; "y"; "n"]%string) "1.1" "y"
           ["n"]%string "  hello  " eq_refl eq_refl eq_refl).
Defined.

(** *** The loop ends *)

(** A pass that asks for another pass has read at least one line. *)
Lemma main_body_consumes w w' :
  main_body w = (inr Continue, w') ->
  (List.length (stdin w') < List.length (stdin w))%nat.
Proof.
  destruct w as [t ins out cb inst].
  unfold main_body, bind, global_SNIPPETS, try_except; cbn [table].
  rewrite (print_menu_run t).
  destruct t as [text|items]; session_step; [discriminate|].
  destruct ins as [|line rest]; session_step; [discriminate|].
  destruct (Str.among (Str.lower (Str.strip line)) _); [discriminate|].
  destruct (read_only_get_nested (Interior items) (Str.strip line)) as [r Hr].
  rewrite Hr. destruct r as [e|[payload|sub]]; session_step;
    [intros H; injection H as <-; simpl; lia| |discriminate].
  destruct rest as [|answer rest]; session_step; [discriminate|].
  destruct (Str.among (Str.lower (Str.strip answer)) _); session_step;
    [|destruct inst; session_step];
    (destruct rest as [|again rest]; session_step; [discriminate|];
     destruct (Str.among (Str.lower (Str.strip again)) _); session_step;
     [discriminate|]);
    intros H; injection H as <-; simpl; lia.
Qed.

(** With more fuel than lines to read, the loop ends within the fuel:
    [main] returns or raises, at the latest with [EOFError] when the input
    is exhausted. *)
Lemma main_loop_ends fuel : forall w,
  (List.length (stdin w) < fuel)%nat ->
  exists outcome, main_loop fuel w = Some outcome.
Proof.
  induction fuel as [|fuel IH]; intros w Hlt; [lia|].
  simpl. destruct (main_body w) as [[e|[| |]] w'] eqn:Hbody;
    try (eexists; reflexivity).
  apply IH. apply main_body_consumes in Hbody. lia.
Qed.

(** * Further properties of the resolver *)

(** A path that is one segment is one step. *)
Lemma get_nested_one_segment d part w :
  Str.free_of "." part = true ->
  get_nested d part w = get_nested_step d part w.
Proof.
  intros H. unfold get_nested. rewrite (StrFacts.split_free _ _ H).
  simpl. unfold bind. now destruct (get_nested_step d part w) as [[e|v] w'].
Qed.

Lemma get_nested_append d p q w :
  get_nested d (p +++ "." +++ q) w
  = bind (get_nested d p) (fun reached => get_nested reached q) w.
Proof.
  unfold get_nested. change ("." +++ q) with (String "." q).
  now rewrite StrFacts.split_append, get_nested_parts_app.
Qed.

(** A first step that raises decides the whole path. *)
Lemma get_nested_first_raises d part more e w :
  Str.free_of "." part = true ->
  get_nested_step d part w = (inl e, w) ->
  get_nested d part w = (inl e, w) /\
  get_nested d (part +++ "." +++ more) w = (inl e, w).
Proof.
  intros Hfree Hstep. split.
  - now rewrite get_nested_one_segment.
  - rewrite get_nested_append. unfold bind.
    now rewrite get_nested_one_segment, Hstep.
Qed.

Lemma lookup_absent part items :
  ~ In part (keys items) -> lookup part items = None.
Proof.
  induction items as [|[k v] rest IH]; simpl; [reflexivity|].
  intros H. destruct (String.eqb_spec part k) as [->|_].
  - exfalso. apply H. now left.
  - apply IH. intros Hin. apply H. now right.
Qed.

Lemma lookup_present items : forall k v,
  NoDup (keys items) -> (lookup k items = Some v <-> In (k, v) items).
Proof.
  induction items as [|[k' v'] rest IH]; intros k v Hnd; simpl.
  - split; [discriminate|contradiction].
  - inversion Hnd as [|? ? Hnotin Hnd']; subst.
    destruct (String.eqb_spec k k') as [->|Hne].
    + split.
      * intros H. injection H as ->. now left.
      * intros [H|H]; [now injection H as ->|].
        exfalso. apply Hnotin. change k' with (fst (k', v)). now apply in_map.
    + rewrite (IH k v Hnd'). split; [now right|].
      intros [H|H]; [injection H as -> ->; congruence|exact H].
Qed.

(** X1.  Paths compose: resolving [p], a dot and [q] is resolving [p] and
    then resolving [q] from the node reached; when [p] fails, its
    exception is the result. *)
Theorem get_nested_composes d p q w :
  get_nested d (p +++ "." +++ q) w
  = match get_nested d p w with
    | (inr reached, w') => get_nested reached q w'
    | (inl e, w') => (inl e, w')
    end.
Proof.
  rewrite get_nested_append. unfold bind.
  now destruct (get_nested d p w) as [[e|v] w'].
Qed.

(** X2.  A segment that is not made of digits and is not a key of the
    dictionary raises [KeyError], as the whole path when it is that
    segment alone and whatever follows it after a dot.  The empty path is
    such a segment. *)
Theorem missing_name_raises_KeyError items part more w :
  Str.isdigit part = false ->
  Str.free_of "." part = true ->
  ~ In part (keys items) ->
  get_nested (Interior items) part w = (inl KeyError, w) /\
  get_nested (Interior items) (part +++ "." +++ more) w = (inl KeyError, w).
Proof.
  intros Hd Hfree Habsent. apply get_nested_first_raises; [assumption|].
  unfold get_nested_step. rewrite Hd. simpl.
  now rewrite (lookup_absent _ _ Habsent).
Qed.

Lemma missing_name_raises_KeyError_witness :
  get_nested example_catalog EmptyString (world0 [])
    = (inl KeyError, world0 []) /\
  get_nested example_catalog ".1" (world0 []) = (inl KeyError, world0 []).
Proof.
  apply (missing_name_raises_KeyError
           [("A"%string, Interior [("x1"%string, Leaf "  hello  ")]);
            ("B"%string, Interior [])]
           EmptyString "1" (world0 []) eq_refl eq_refl).
  simpl. intuition discriminate.
Defined.

(** X3.  A digit-only segment whose value, as [int] reads it, is above the
    number of children of the dictionary raises [IndexError], as the whole
    path and whatever follows it after a dot. *)
Theorem index_above_count_raises_IndexError items part value more w :
  Str.isdigit part = true ->
  Str.int part = Some value ->
  Z.of_nat (List.length items) < value ->
  get_nested (Interior items) part w = (inl IndexError, w) /\
  get_nested (Interior items) (part +++ "." +++ more) w = (inl IndexError, w).
Proof.
  intros Hd Hv Hgt. apply get_nested_first_raises.
  - now apply StrFacts.isdigit_free_of_dot.
  - now apply step_above with value.
Qed.

Lemma index_above_count_raises_IndexError_witness :
  get_nested example_catalog "3" (world0 []) = (inl IndexError, world0 []) /\
  get_nested example_catalog "3.1" (world0 [])
    = (inl IndexError, world0 []).
Proof.
  apply (index_above_count_raises_IndexError
           [("A"%string, Interior [("x1"%string, Leaf "  hello  ")]);
            ("B"%string, Interior [])]
           "3" 3 "1" (world0 [])); vm_compute; reflexivity.
Defined.

(** X4.  A digit-only segment that [int] reads as zero ([0], [00], ...)
    does not raise on a dictionary that has children: it returns the last
    child, because the index [-1] counts from the end.  On an empty
    dictionary it raises [IndexError]. *)
Theorem zero_segment_returns_last_child items k v part w :
  Str.isdigit part = true ->
  Str.int part = Some 0 ->
  get_nested (Interior (items ++ [(k, v)])) part w = (inr v, w) /\
  get_nested (Interior []) part w = (inl IndexError, w).
Proof.
  intros Hd Hz. pose proof (StrFacts.isdigit_free_of_dot _ Hd) as Hfree.
  rewrite !get_nested_one_segment by assumption. split.
  - now apply step_zero.
  - unfold get_nested_step. now rewrite Hd, Hz.
Qed.

Lemma zero_segment_returns_last_child_witness :
  get_nested example_catalog "00" (world0 [])
    = (inr (Interior []), world0 []) /\
  get_nested (Interior []) "00" (world0 []) = (inl IndexError, world0 []).
Proof.
  apply (zero_segment_returns_last_child
           [("A"%string, Interior [("x1"%string, Leaf "  hello  ")])]
           "B"%string (Interior []) "00" (world0 []));
    vm_compute; reflexivity.
Defined.

(** X5.  Leading zeros do not count: a digit-only segment and the same
    segment with a zero in front resolve alike, from every node, alone or
    followed by more of a path. *)
Theorem leading_zero_is_ignored d part more w :
  Str.isdigit part = true ->
  get_nested d (String "0" part) w = get_nested d part w /\
  get_nested d (String "0" part +++ "." +++ more) w
  = get_nested d (part +++ "." +++ more) w.
Proof.
  intros Hd. pose proof (StrFacts.isdigit_free_of_dot _ Hd) as Hfree.
  assert (Hfree0 : Str.free_of "." (String "0" part) = true)
    by (simpl; exact Hfree).
  assert (Hc : Str.chars (String "0" part)
               = (48%N, "0"%string) :: Str.chars part)
    by (apply StrFacts.chars_ascii; reflexivity).
  assert (Hd0 : Str.isdigit (String "0" part) = true).
  { unfold Str.isdigit in *. rewrite Hc.
    destruct (Str.chars part) as [|c cs]; [discriminate|].
    cbn [forallb] in *. now rewrite Hd. }
  assert (Hi : Str.int (String "0" part) = Str.int part).
  { unfold Str.int, Str.isdigit in *. rewrite Hc.
    destruct (Str.chars part) as [|c cs]; [discriminate|]. reflexivity. }
  assert (Hstep : forall x, get_nested_step d (String "0" part) x
                            = get_nested_step d part x).
  { intros x. unfold get_nested_step. now rewrite Hd, Hd0, Hi. }
  split.
  - now rewrite !get_nested_one_segment.
  - rewrite !get_nested_append. unfold bind.
    now rewrite !get_nested_one_segment, Hstep.
Qed.

Lemma leading_zero_is_ignored_witness :
  get_nested example_catalog "01" (world0 [])
    = get_nested example_catalog "1" (world0 []) /\
  get_nested example_catalog "01.1" (world0 [])
    = get_nested example_catalog "1.1" (world0 []).
Proof.
  apply (leading_zero_is_ignored example_catalog "1" "1" (world0 [])).
  vm_compute. reflexivity.
Defined.

Lemma list_getitem_returns_element {A} (l : list A) idx x w w' :
  list_getitem l idx w = (inr x, w') ->
  exists n, nth_error l n = Some x.
Proof.
  unfold list_getitem. destruct (_ || _); [discriminate|].
  match goal with |- context [nth_error l ?i] =>
    destruct (nth_error l i) as [y|] eqn:E end; [|discriminate].
  intros H. injection H as -> _. eauto.
Qed.

Lemma lookup_returns_item items : forall part v,
  lookup part items = Some v ->
  exists n, nth_error items n = Some (part, v).
Proof.
  induction items as [|[k c] rest IH]; intros part v; simpl; [discriminate|].
  destruct (String.eqb_spec part k) as [->|_].
  - intros H. injection H as ->. now exists O.
  - intros H. destruct (IH _ _ H) as [n Hn]. now exists (S n).
Qed.

(** One step leads to a child of the current node. *)
Lemma step_returns_child current part v w w' :
  get_nested_step current part w = (inr v, w') ->
  exists items n k,
    current = Interior items /\ nth_error items n = Some (k, v).
Proof.
  unfold get_nested_step. destruct current as [payload|items].
  - destruct (Str.isdigit part); [|discriminate].
    destruct (Str.int part); discriminate.
  - destruct (Str.isdigit part).
    + destruct (Str.int part) as [value|]; [|discriminate].
      unfold bind, values, ret. intros H.
      apply list_getitem_returns_element in H as [n Hn].
      rewrite nth_error_map in Hn.
      destruct (nth_error items n) as [[k c]|] eqn:E; [|discriminate].
      injection Hn as ->. now exists items, n, k.
    + simpl. destruct (lookup part items) as [c|] eqn:E; [|discriminate].
      intros H. injection H as -> _.
      destruct (lookup_returns_item _ _ _ E) as [n Hn].
      now exists items, n, part.
Qed.

Lemma parts_return_catalog_node parts : forall current v w w',
  get_nested_parts current parts w = (inr v, w') ->
  exists chain,
    located current chain v /\ List.length chain = List.length parts.
Proof.
  induction parts as [|part rest IH]; intros current v w w'; simpl.
  - intros H. injection H as -> _. exists []. split; [constructor|reflexivity].
  - unfold bind.
    destruct (get_nested_step current part w) as [[e|next] w1] eqn:Hstep;
      [discriminate|].
    intros H. destruct (IH _ _ _ _ H) as [chain [Hloc Hlen]].
    destruct (step_returns_child _ _ _ _ _ Hstep) as (items & n & k & -> & Hn).
    exists ((S n, k) :: chain). split; [|simpl; now rewrite Hlen].
    econstructor; eassumption.
Qed.

(** X6.  Whatever the path, a node that [get_nested] returns is a node of
    the catalog it was given: it is reached from the root by going down
    from a dictionary to one of its children once per segment of the
    path.  The function builds no node and returns none from elsewhere. *)
Theorem get_nested_returns_catalog_node root path v w w' :
  get_nested root path w = (inr v, w') ->
  exists chain,
    located root chain v /\
    List.length chain = List.length (Str.split "." path).
Proof. apply parts_return_catalog_node. Qed.

Lemma get_nested_returns_catalog_node_witness :
  exists chain,
    located example_catalog chain (Leaf "  hello  ") /\
    List.length chain = 2%nat.
Proof.
  exact (get_nested_returns_catalog_node example_catalog "1.0"
           (Leaf "  hello  ") (world0 []) (world0 []) eq_refl).
Defined.

(** X7.  In a dictionary that holds each key once, a segment that is not
    made of digits and holds no dot resolves to a value exactly when the
    dictionary stores that value under that key. *)
Theorem plain_name_resolves_to_its_value items k v w :
  NoDup (keys items) ->
  plain_name k = true ->
  (get_nested (Interior items) k w = (inr v, w) <-> In (k, v) items).
Proof.
  intros Hnd Hplain. unfold plain_name in Hplain.
  apply andb_prop in Hplain as [Hd Hfree]. apply negb_true_iff in Hd.
  rewrite get_nested_one_segment by assumption.
  rewrite <- (lookup_present items k v Hnd).
  unfold get_nested_step. rewrite Hd. simpl.
  destruct (lookup k items) as [c|]; split; intros H;
    try discriminate; injection H as ->; reflexivity.
Qed.

Lemma plain_name_resolves_to_its_value_witness :
  get_nested example_catalog "B" (world0 [])
    = (inr (Interior []), world0 []) <->
  In ("B"%string, Interior [])
     [("A"%string, Interior [("x1"%string, Leaf "  hello  ")]);
      ("B"%string, Interior [])].
Proof.
  apply (plain_name_resolves_to_its_value
           [("A"%string, Interior [("x1"%string, Leaf "  hello  ")]);
            ("B"%string, Interior [])]
           "B"%string (Interior []) (world0 [])).
  - repeat constructor; simpl; intuition discriminate.
  - reflexivity.
Defined.

(** * Further properties of the renderer *)

Lemma count_entries_Interior_cons k child rest :
  count_entries (Interior ((k, child) :: rest))
  = S (count_entries child + count_entries (Interior rest)).
Proof. reflexivity. Qed.

Lemma enumerate_cons {A} (a : A) l start :
  enumerate (a :: l) start = (start, a) :: enumerate l (S start).
Proof. reflexivity. Qed.

(** X8.  The menu has one line for each entry of the catalog, categories
    and snippets at every depth alike, whatever the level and the prefix
    it is rendered under. *)
Theorem menu_has_one_line_per_entry d level prefix :
  List.length (rendered d level prefix) = count_entries d.
Proof.
  revert level prefix.
  induction d as [payload|items IH] using node_induction;
    intros level prefix.
  - reflexivity.
  - rewrite rendered_Interior. generalize 1%nat as start.
    induction IH as [|[k child] rest Hchild _ IHrest]; intros start.
    + reflexivity.
    + rewrite enumerate_cons, count_entries_Interior_cons. cbn [flat_map].
      rewrite length_app, IHrest. simpl in Hchild.
      destruct child as [payload|sub]; cbn [child_lines List.length].
      * reflexivity.
      * now rewrite Hchild.
Qed.

Lemma times_comm_one s n : s +++ Str.times s n = Str.times s n +++ s.
Proof.
  induction n as [|n IH]; simpl.
  - now rewrite append_empty_r.
  - now rewrite IH at 1; rewrite StripFacts.append_assoc.
Qed.

Lemma indent_S level rest :
  indent (S level) +++ rest = indent level +++ "  " +++ rest.
Proof.
  unfold indent. cbn [Str.times].
  now rewrite times_comm_one, StripFacts.append_assoc.
Qed.

(** The position of a numbered child in the rendering of its parent. *)
Lemma child_lines_in_rendering items level prefix n k v line :
  nth_error items n = Some (k, v) ->
  In line (child_lines level prefix (S n, (k, v))) ->
  In line (rendered (Interior items) level prefix).
Proof.
  intros Hn Hin. rewrite rendered_Interior. apply in_flat_map.
  exists (S n, (k, v)). split; [|exact Hin].
  eapply nth_error_In. exact (enumerate_nth items 1 n _ Hn).
Qed.

Lemma menu_line_of_entry root chain target :
  located root chain target ->
  chain <> [] ->
  forall level prefix,
    In (menu_line (level + List.length chain - 1)
                  (prefix +++ numeric_path chain)
                  (snd (last chain (O, EmptyString))) target)
       (rendered root level prefix).
Proof.
  induction 1 as [v|items n k v chain target Hn Hloc IH]; [congruence|].
  intros _ level prefix.
  apply (child_lines_in_rendering _ _ _ _ _ _ _ Hn).
  destruct chain as [|c chain].
  - inversion Hloc; subst. unfold menu_line, numeric_path.
    cbn [map Str.join fst snd last List.length].
    replace (level + 1 - 1)%nat with level by lia.
    rewrite StripFacts.append_assoc.
    destruct target as [payload|sub]; cbn [child_lines isinstance_dict].
    + left. now rewrite append_empty_r.
    + left. reflexivity.
  - assert (Hne : c :: chain <> []) by discriminate.
    specialize (IH Hne (S level) (prefix +++ Str.str (S n) +++ ".")).
    inversion Hloc; subst. cbn [child_lines]. right.
    replace (level + List.length ((S n, k) :: (S n0, k0) :: chain) - 1)%nat
      with (S level + List.length ((S n0, k0) :: chain) - 1)%nat
      by (simpl; lia).
    change (last ((S n, k) :: (S n0, k0) :: chain) (O, EmptyString))
      with (last ((S n0, k0) :: chain) (O, EmptyString)).
    replace (prefix +++ numeric_path ((S n, k) :: (S n0, k0) :: chain))
      with ((prefix +++ Str.str (S n) +++ ".")
            +++ numeric_path ((S n0, k0) :: chain)).
    + exact IH.
    + unfold numeric_path. cbn [map Str.join fst].
      now rewrite !StripFacts.append_assoc.
Qed.

(** X9.  The label shown in the menu selects the entry it labels, at every
    depth: an entry reached through the positions [i1, ..., in] is listed
    on a line of the menu indented [n - 1] times, labelled [i1.i2...in]
    and bearing its name (with a slash for a category), and resolving that
    label returns that entry, category or snippet. *)
Theorem menu_label_selects_entry items chain target w :
  located (Interior items) chain target ->
  chain <> [] ->
  In (menu_line (List.length chain - 1) (numeric_path chain)
                (snd (last chain (O, EmptyString))) target)
     (rendered (Interior items) 0 EmptyString)
  /\ get_nested (Interior items) (numeric_path chain) w = (inr target, w).
Proof.
  intros Hloc Hne. split.
  - exact (menu_line_of_entry _ _ _ Hloc Hne O EmptyString).
  - unfold get_nested, numeric_path. rewrite StrFacts.split_join.
    + now apply located_numeric.
    + destruct chain; [congruence|discriminate].
    + apply Forall_map, Forall_forall. intros c _.
      apply StrFacts.free_of_dot_str.
Qed.

Lemma menu_label_selects_entry_witness :
  In (Line "  1.1) x1")
     (rendered example_catalog 0 EmptyString)
  /\ get_nested example_catalog "1.1" (world0 [])
     = (inr (Leaf "  hello  "), world0 []).
Proof.
  apply (menu_label_selects_entry
           [("A"%string, Interior [("x1"%string, Leaf "  hello  ")]);
            ("B"%string, Interior [])]
           [(1%nat, "A"%string); (1%nat, "x1"%string)]
           (Leaf "  hello  ") (world0 [])).
  - repeat econstructor.
  - discriminate.
Defined.

Lemma rendered_lines_indented d : forall level prefix,
  Forall (fun out => exists rest, out = Line (indent level +++ rest))
         (rendered d level prefix).
Proof.
  induction d as [payload|items IH] using node_induction;
    intros level prefix.
  - constructor.
  - rewrite rendered_Interior. generalize 1%nat as start.
    induction IH as [|[k child] rest Hchild _ IHrest]; intros start.
    + constructor.
    + rewrite enumerate_cons. cbn [flat_map]. apply Forall_app. split;
        [|apply IHrest].
      simpl in Hchild.
      destruct child as [payload|sub]; cbn [child_lines].
      * repeat constructor. eexists. reflexivity.
      * constructor; [eexists; reflexivity|].
        eapply Forall_impl;
          [|apply (Hchild (S level) (prefix +++ Str.str start +++ "."))].
        intros out [rest' ->]. rewrite indent_S. eexists. reflexivity.
Qed.

(** X10.  [print_menu] only writes lines: it leaves the table, the pending
    input and the clipboard as they are, keeps what was written before,
    and what it adds are lines (never a prompt) that each begin with the
    indentation of the level it was called at. *)
Theorem print_menu_only_writes_lines d level prefix w :
  let w' := snd (print_menu d level prefix w) in
  table w' = table w /\
  stdin w' = stdin w /\
  clipboard w' = clipboard w /\
  pyperclip_installed w' = pyperclip_installed w /\
  exists added,
    stdout w' = stdout w ++ added /\
    Forall (fun out => exists rest, out = Line (indent level +++ rest)) added.
Proof.
  cbv zeta. rewrite (print_menu_run d). simpl. repeat split.
  exists (rendered d level prefix). split; [reflexivity|].
  apply rendered_lines_indented.
Qed.

(** * Further properties of the session *)

Lemma main_unfold fuel w :
  main fuel w = main_loop fuel (append_out w [greeting]).
Proof. reflexivity. Qed.

Ltac session_open w :=
  destruct w as [t ins out cb inst];
  cbn [table stdin stdout clipboard pyperclip_installed] in *; subst;
  unfold main_body, bind, global_SNIPPETS, try_except, menu_and_prompt;
  cbn [table stdout append_out];
  rewrite (print_menu_run (Interior _)); session_step.

(** X11.  A choice that, stripped and in lower case, is [q], [quit],
    [exit] or empty ends the session normally: [main] has written the
    greeting, the menu, an empty line and the prompt, has read that one
    line and nothing after it, and has not touched the clipboard. *)
Theorem quit_token_ends_session w items line rest fuel :
  table w = Interior items ->
  stdin w = line :: rest ->
  Str.among (Str.lower (Str.strip line))
            ["q"; "quit"; "exit"; EmptyString]%string = true ->
  main (S fuel) w
  = Some (inr tt,
          mkWorld (table w) rest
                  (stdout w ++ greeting :: menu_and_prompt w)
                  (clipboard w) (pyperclip_installed w)).
Proof.
  intros Ht Hin Hq. rewrite main_unfold. cbn [main_loop].
  session_open w. rewrite Hq. session_step.
  rewrite <- !app_assoc. reflexivity.
Qed.

Lemma quit_token_ends_session_witness :
  main 1 (world0 ["  QUIT  "; "1.1"]%string)
  = Some (inr tt,
          mkWorld example_catalog ["1.1"%string]
                  ([] ++ greeting
                      :: menu_and_prompt (world0 ["  QUIT  "; "1.1"]%string))
                  None true).
Proof.
  exact (quit_token_ends_session (world0 ["  QUIT  "; "1.1"]%string)
           _ "  QUIT  " ["1.1"%string] 0 eq_refl eq_refl eq_refl).
Defined.

(** X12.  When the input is exhausted at the prompt, [input] raises
    [EOFError]; no handler of [main] catches it, so [main] ends with that
    exception after the greeting, the menu, an empty line and the
    prompt. *)
Theorem end_of_input_raises_EOFError w items fuel :
  table w = Interior items ->
  stdin w = [] ->
  main (S fuel) w
  = Some (inl EOFError,
          mkWorld (table w) []
                  (stdout w ++ greeting :: menu_and_prompt w)
                  (clipboard w) (pyperclip_installed w)).
Proof.
  intros Ht Hin. rewrite main_unfold. cbn [main_loop].
  session_open w. rewrite <- !app_assoc. reflexivity.
Qed.

Lemma end_of_input_raises_EOFError_witness :
  main 1 (world0 [])
  = Some (inl EOFError,
          mkWorld example_catalog []
                  ([] ++ greeting :: menu_and_prompt (world0 []))
                  None true).
Proof.
  exact (end_of_input_raises_EOFError (world0 []) _ 0 eq_refl eq_refl).
Defined.

(** X13.  A choice that [get_nested] rejects, with whatever exception,
    costs one line of input and nothing else: the loop writes the menu,
    the prompt and "Invalid selection.", leaves the clipboard alone, and
    starts the next pass. *)
Theorem rejected_choice_starts_next_pass w items line rest e fuel :
  table w = Interior items ->
  stdin w = line :: rest ->
  Str.among (Str.lower (Str.strip line))
            ["q"; "quit"; "exit"; EmptyString]%string = false ->
  get_nested (table w) (Str.strip line) w = (inl e, w) ->
  main_loop (S fuel) w
  = main_loop fuel
      (mkWorld (table w) rest
               (stdout w ++ menu_and_prompt w
                ++ [Line ("Invalid selection." +++ nl)])
               (clipboard w) (pyperclip_installed w)).
Proof.
  intros Ht Hin Hq Hres. cbn [main_loop].
  unfold menu_and_prompt.
  rewrite (failed_resolution_reprompts w items line rest e Ht Hin Hq Hres).
  now rewrite <- !app_assoc.
Qed.

Lemma rejected_choice_starts_next_pass_witness :
  main_loop 2 (world0 ["7"; "q"]%string)
  = main_loop 1
      (mkWorld example_catalog ["q"%string]
               ([] ++ menu_and_prompt (world0 ["7"; "q"]%string)
                ++ [Line ("Invalid selection." +++ nl)])
               None true).
Proof.
  exact (rejected_choice_starts_next_pass (world0 ["7"; "q"]%string)
           _ "7" ["q"%string] IndexError 1 eq_refl eq_refl eq_refl eq_refl).
Defined.

(** X14.  The whole pass for a choice that resolves to a snippet, when the
    user answers both questions.  The pass writes the menu, the prompt,
    the snippet between two rules and the question about copying; then
    nothing if the answer is [n] or [no], "(copied)" if [pyperclip] is
    installed, else the hint to install it, the missing module raising
    nothing further; then the question about another snippet, and the
    separator unless that answer is [n] or [no], which breaks the loop.
    It reads exactly the three lines, and the clipboard changes only in
    the "(copied)" case. *)
Theorem snippet_pass w line answer again rest payload :
  stdin w = line :: answer :: again :: rest ->
  Str.among (Str.lower (Str.strip line))
            ["q"; "quit"; "exit"; EmptyString]%string = false ->
  get_nested (table w) (Str.strip line) w = (inr (Leaf payload), w) ->
  let declined :=
    Str.among (Str.lower (Str.strip answer)) ["n"; "no"]%string in
  let stop :=
    Str.among (Str.lower (Str.strip again)) ["n"; "no"]%string in
  main_body w
  = (inr (if stop then Break else Continue),
     mkWorld (table w) rest
       (stdout w ++ menu_and_prompt w
        ++ [Line (nl +++ Str.times "═" 70);
            Line (Str.strip payload);
            Line (Str.times "═" 70 +++ nl);
            Prompt "Copy to clipboard? [Y/n] "]
        ++ (if declined then []
            else if pyperclip_installed w
                 then [Line ("(copied)" +++ nl)]
                 else [Line ("(install pyperclip → pip install pyperclip)"
                             +++ nl)])
        ++ [Prompt "Another? [Y/n] "]
        ++ (if stop then [] else [Line (Str.times "─" 60 +++ nl)]))
       (if declined then clipboard w
        else if pyperclip_installed w then Some (Str.strip payload)
             else clipboard w)
       (pyperclip_installed w)).
Proof.
  intros Hin Hq Hres. cbv zeta. unfold menu_and_prompt.
  session_start w Hin Hres.
  rewrite Hq, Hany. session_step.
  destruct (Str.among (Str.lower (Str.strip answer)) _); session_step;
    [|destruct inst; session_step];
    destruct (Str.among (Str.lower (Str.strip again)) _); session_step;
    rewrite <- !app_assoc; reflexivity.
Qed.

Lemma snippet_pass_witness :
  main_body (mkWorld example_catalog ["A.x1"; "yes"; "No"; "q"]%string
                     [] None false)
  = (inr Break,
     mkWorld example_catalog ["q"%string]
       ([] ++ menu_and_prompt (world0 [])
        ++ [Line (nl +++ Str.times "═" 70);
            Line "hello";
            Line (Str.times "═" 70 +++ nl);
            Prompt "Copy to clipboard? [Y/n] "]
        ++ [Line ("(install pyperclip → pip install pyperclip)" +++ nl)]
        ++ [Prompt "Another? [Y/n] "]
        ++ [])
       None false).
Proof.
  exact (snippet_pass
           (mkWorld example_catalog ["A.x1"; "yes"; "No"; "q"]%string
                    [] None false)
           "A.x1" "yes" "No" ["q"%string] "  hello  "
           eq_refl eq_refl eq_refl).
Defined.

(** *** What a session never does *)

Lemma later_world_refl w : later_world w w.
Proof.
  repeat split; [exists []; now rewrite app_nil_r|now exists []].
Qed.

Lemma later_world_trans w1 w2 w3 :
  later_world w1 w2 -> later_world w2 w3 -> later_world w1 w3.
Proof.
  intros (Ht & Hi & [a Ha] & [c Hc]) (Ht' & Hi' & [a' Ha'] & [c' Hc']).
  repeat split; try congruence.
  - exists (a ++ a'). now rewrite Ha', Ha, app_assoc.
  - exists (c ++ c'). now rewrite Hc, Hc', app_assoc.
Qed.

Ltac later_world_done :=
  unfold later_world;
  cbn [table stdin stdout clipboard pyperclip_installed fst snd];
  repeat split;
  [ rewrite <- ?app_assoc; eexists; reflexivity
  | first [ exists (@nil string); reflexivity
          | eexists (cons _ nil); reflexivity
          | eexists (cons _ (cons _ nil)); reflexivity
          | eexists (cons _ (cons _ (cons _ nil))); reflexivity ] ].

Lemma main_body_later w : later_world w (snd (main_body w)).
Proof.
  destruct w as [t ins out cb inst].
  unfold main_body, bind, global_SNIPPETS, try_except; cbn [table].
  rewrite (print_menu_run t).
  destruct t as [text|items]; session_step; [later_world_done|].
  destruct ins as [|line rest]; session_step; [later_world_done|].
  destruct (Str.among (Str.lower (Str.strip line)) _); session_step;
    [later_world_done|].
  destruct (read_only_get_nested (Interior items) (Str.strip line)) as [r Hr].
  rewrite Hr. destruct r as [e|[payload|sub]]; session_step;
    [later_world_done| |later_world_done].
  destruct rest as [|answer rest]; session_step; [later_world_done|].
  destruct (Str.among (Str.lower (Str.strip answer)) _); session_step;
    [|destruct inst; session_step];
    (destruct rest as [|again rest]; session_step; [later_world_done|];
     destruct (Str.among (Str.lower (Str.strip again)) _); session_step;
     later_world_done).
Qed.

Lemma main_loop_later fuel : forall w r w',
  main_loop fuel w = Some (r, w') -> later_world w w'.
Proof.
  induction fuel as [|fuel IH]; intros w r w'; [discriminate|].
  cbn [main_loop]. pose proof (main_body_later w) as Hbody.
  destruct (main_body w) as [[e|[| |]] w1]; cbn [snd] in Hbody; intros H;
    try (injection H as _ <-; exact Hbody).
  eapply later_world_trans; [exact Hbody|]. eapply IH. exact H.
Qed.

(** X15.  However a session goes and however it ends, [main] never
    changes the table, reads the input in order without skipping a line,
    and only adds to what is already on the terminal: nothing written is
    ever taken back. *)
Theorem main_keeps_table_and_history fuel w r w' :
  main fuel w = Some (r, w') ->
  table w' = table w /\
  pyperclip_installed w' = pyperclip_installed w /\
  (exists added, stdout w' = stdout w ++ added) /\
  (exists consumed, stdin w = consumed ++ stdin w').
Proof.
  rewrite main_unfold. intros H.
  apply main_loop_later in H.
  apply (later_world_trans w (append_out w [greeting]) w'); [|exact H].
  repeat split; [now exists [greeting]|now exists []].
Qed.

Lemma main_keeps_table_and_history_witness :
  table (mkWorld example_catalog ["1.1"%string]
           ([] ++ greeting :: menu_and_prompt (world0 [])) None true)
  = example_catalog /\
  true = true /\
  (exists added,
     [] ++ greeting :: menu_and_prompt (world0 []) = [] ++ added) /\
  (exists consumed, ["  QUIT  "; "1.1"]%string = consumed ++ ["1.1"%string]).
Proof.
  exact (main_keeps_table_and_history 1
           (world0 ["  QUIT  "; "1.1"]%string) (inr tt) _ eq_refl).
Defined.

(** *** The session ends *)

Lemma main_loop_more_fuel fuel : forall w outcome,
  main_loop fuel w = Some outcome ->
  forall fuel', (fuel <= fuel')%nat -> main_loop fuel' w = Some outcome.
Proof.
  induction fuel as [|fuel IH]; intros w outcome H fuel' Hle; [discriminate|].
  destruct fuel' as [|fuel']; [lia|].
  cbn [main_loop] in *.
  destruct (main_body w) as [[e|[| |]] w1]; try exact H.
  apply (IH _ _ H). lia.
Qed.

(** X16.  A session always ends, and in one way: there is one outcome
    (a normal return or an exception, with the final world) that [main]
    reaches for every bound on the passes above the number of lines of
    input.  The loop cannot go round without reading a line, so at the
    latest the end of the input stops it. *)
Theorem session_ends w :
  exists outcome,
    forall fuel,
      (List.length (stdin w) < fuel)%nat -> main fuel w = Some outcome.
Proof.
  destruct (main_loop_ends (S (List.length (stdin w)))
              (append_out w [greeting])) as [outcome H];
    [simpl; lia|].
  exists outcome. intros fuel Hlt. rewrite main_unfold.
  apply (main_loop_more_fuel _ _ _ H). lia.
Qed.

Lemma session_ends_witness :
  exists outcome,
    forall fuel,
      (2 < fuel)%nat -> main fuel (world0 ["7"; "q"]%string) = Some outcome.
Proof. exact (session_ends (world0 ["7"; "q"]%string)). Defined.

(** *** What reaches the clipboard *)

Lemma main_body_clipboard w :
  clipboard (snd (main_body w)) = clipboard w \/
  exists chain payload,
    located (table w) chain (Leaf payload) /\
    clipboard (snd (main_body w)) = Some (Str.strip payload).
Proof.
  destruct w as [t ins out cb inst].
  unfold main_body, bind, global_SNIPPETS, try_except; cbn [table].
  rewrite (print_menu_run t).
  destruct t as [text|items]; session_step; [now left|].
  destruct ins as [|line rest]; session_step; [now left|].
  destruct (Str.among (Str.lower (Str.strip line)) _); session_step;
    [now left|].
  destruct (read_only_get_nested (Interior items) (Str.strip line)) as [r Hr].
  rewrite Hr. destruct r as [e|[payload|sub]]; session_step;
    [now left| |now left].
  destruct (parts_return_catalog_node _ _ _ _ _
              (Hr (mkWorld (Interior items) [] [] None false)))
    as [chain [Hloc _]].
  destruct rest as [|answer rest]; session_step; [now left|].
  destruct (Str.among (Str.lower (Str.strip answer)) _); session_step;
    [|destruct inst; session_step];
    (destruct rest as [|again rest]; session_step;
     [|destruct (Str.among (Str.lower (Str.strip again)) _); session_step]);
    solve [now left | right; exists chain, payload; now split].
Qed.

Lemma main_loop_clipboard fuel : forall w r w',
  main_loop fuel w = Some (r, w') ->
  clipboard w' = clipboard w \/
  exists chain payload,
    located (table w) chain (Leaf payload) /\
    clipboard w' = Some (Str.strip payload).
Proof.
  induction fuel as [|fuel IH]; intros w r w'; [discriminate|].
  cbn [main_loop].
  pose proof (main_body_clipboard w) as Hbody.
  pose proof (main_body_later w) as (Htable & _).
  destruct (main_body w) as [[e|[| |]] w1]; cbn [snd] in Hbody, Htable;
    intros H; try (injection H as _ <-; exact Hbody).
  destruct (IH _ _ _ H) as [Hsame|(chain & payload & Hloc & Hcb)].
  - rewrite Hsame. exact Hbody.
  - right. exists chain, payload. split; [now rewrite <- Htable|exact Hcb].
Qed.

(** X17.  The clipboard receives nothing but snippets of the table: when
    [main] ends, the clipboard is as it was at the start or holds the
    stripped text of a snippet that is in the table. *)
Theorem clipboard_holds_only_snippets fuel w r w' :
  main fuel w = Some (r, w') ->
  clipboard w' = clipboard w \/
  exists chain payload,
    located (table w) chain (Leaf payload) /\
    clipboard w' = Some (Str.strip payload).
Proof.
  rewrite main_unfold. intros H.
  exact (main_loop_clipboard _ _ _ _ H).
Qed.

Lemma clipboard_holds_only_snippets_witness :
  exists w',
    main 2 (world0 ["1.0"; "y"; "n"]%string) = Some (inr tt, w') /\
    (clipboard w' = None \/
     exists chain payload,
       located example_catalog chain (Leaf payload) /\
       clipboard w' = Some (Str.strip payload)).
Proof.
  eexists. split.
  - vm_compute. reflexivity.
  - apply (clipboard_holds_only_snippets 2
             (world0 ["1.0"; "y"; "n"]%string) (inr tt)).
    vm_compute. reflexivity.
Defined.

(** X18.  A choice that resolves to a category ends the session with an
    exception: the pass writes the menu, the prompt and the first rule,
    then [code.strip()] raises [AttributeError] outside the [try], and
    [main_loop] stops there with the rest of the input unread and the
    clipboard untouched. *)
Theorem category_choice_ends_session w line rest sub fuel :
  stdin w = line :: rest ->
  Str.among (Str.lower (Str.strip line))
            ["q"; "quit"; "exit"; EmptyString]%string = false ->
  get_nested (table w) (Str.strip line) w = (inr (Interior sub), w) ->
  main_loop (S fuel) w
  = Some (inl AttributeError,
          mkWorld (table w) rest
                  (stdout w ++ menu_and_prompt w
                   ++ [Line (nl +++ Str.times "═" 70)])
                  (clipboard w) (pyperclip_installed w)).
Proof.
  intros Hin Hq Hres. cbn [main_loop]. unfold menu_and_prompt.
  rewrite (category_selection_raises w line rest sub Hin Hq Hres).
  now rewrite <- !app_assoc.
Qed.

Lemma category_choice_ends_session_witness :
  main_loop 1 (world0 ["A"; "y"]%string)
  = Some (inl AttributeError,
          mkWorld example_catalog ["y"%string]
                  ([] ++ menu_and_prompt (world0 [])
                   ++ [Line (nl +++ Str.times "═" 70)])
                  None true).
Proof.
  exact (category_choice_ends_session (world0 ["A"; "y"]%string)
           "A" ["y"%string] _ 0 eq_refl eq_refl eq_refl).
Defined.

(** * Paths that mix positions and names *)

Lemma located_mixed root chain target :
  located root chain target ->
  well_formed root ->
  forall by_name w,
    List.length by_name = List.length chain ->
    Forall (fun c => fst c = true -> plain_name (snd (snd c)) = true)
           (combine by_name chain) ->
    get_nested_parts root
      (map (fun c => segment_for (fst c) (snd c)) (combine by_name chain)) w
    = (inr target, w).
Proof.
  induction 1 as [v|items n k v chain target Hn _ IH];
    intros Hwf by_name w Hlen Hplain.
  - destruct by_name; [reflexivity|discriminate].
  - destruct by_name as [|b by_name]; [discriminate|].
    injection Hlen as Hlen. cbn [combine map fst snd] in *.
    inversion Hplain as [|? ? Hb Hrest]; subst. cbn [fst snd] in Hb.
    assert (Hstep : get_nested_step (Interior items) (segment_for b (S n, k)) w
                    = (inr v, w)).
    { destruct b; cbn [segment_for fst snd].
      - specialize (Hb eq_refl). unfold plain_name in Hb.
        apply andb_prop in Hb as [Hd _]. apply negb_true_iff in Hd.
        apply step_name; [exact Hd|].
        apply well_formed_Interior in Hwf as [Hnd _].
        eapply lookup_at_position; eassumption.
      - eapply step_position; eassumption. }
    cbn [get_nested_parts]. unfold bind. rewrite Hstep.
    apply IH; [eapply well_formed_child; eassumption|assumption|assumption].
Qed.

(** X19.  Positions and names can be mixed in one path.  In a catalog whose
    dictionaries hold each key once, a path that gives every step of the
    way to an entry either as its position or as its name resolves to that
    entry, category or snippet, provided each name used is not made of
    digits only and holds no dot. *)
Theorem mixed_path_resolves items chain target by_name w :
  well_formed (Interior items) ->
  located (Interior items) chain target ->
  chain <> [] ->
  List.length by_name = List.length chain ->
  Forall (fun c => fst c = true -> plain_name (snd (snd c)) = true)
         (combine by_name chain) ->
  get_nested (Interior items) (mixed_path by_name chain) w = (inr target, w).
Proof.
  intros Hwf Hloc Hne Hlen Hplain. unfold get_nested, mixed_path.
  rewrite StrFacts.split_join.
  - now apply located_mixed.
  - destruct chain; [congruence|]. destruct by_name; discriminate.
  - apply Forall_map. eapply Forall_impl; [|exact Hplain].
    intros [b c] Hc. cbn [fst snd] in *. destruct b; cbn [segment_for].
    + specialize (Hc eq_refl). unfold plain_name in Hc.
      now apply andb_prop in Hc.
    + apply StrFacts.free_of_dot_str.
Qed.

Lemma mixed_path_resolves_witness :
  get_nested example_catalog "A.1" (world0 [])
    = (inr (Leaf "  hello  "), world0 []).
Proof.
  apply (mixed_path_resolves
           [("A"%string, Interior [("x1"%string, Leaf "  hello  ")]);
            ("B"%string, Interior [])]
           [(1%nat, "A"%string); (1%nat, "x1"%string)]
           (Leaf "  hello  ") [true; false] (world0 [])).
  - exact example_catalog_well_formed.
  - exact example_leaf_located.
  - discriminate.
  - reflexivity.
  - repeat constructor.
Defined.

(** * Characters beyond ASCII *)

(** A full-width digit is a digit and a number: the segment made of it
    selects by position, also where a child bears it as its name.  A
    superscript two is a digit and no number: [int] raises
    [ValueError]. *)
Example fullwidth_digit_is_a_position :
  forall w,
    plain_name "１" = false /\
    get_nested fullwidth_named_catalog "１" w
      = (inr (Interior [("z"%string, Leaf "y")]), w) /\
    get_nested fullwidth_named_catalog "１.z" w = (inr (Leaf "y"), w) /\
    get_nested fullwidth_named_catalog "²" w = (inl ValueError, w) /\
    get_nested fullwidth_named_catalog "1.1.²" w = (inl ValueError, w).
Proof. intros w. repeat split; vm_compute; reflexivity. Qed.

(** A no-break space is white space: [strip] removes it from a payload,
    from a choice and from an answer. *)
Example no_break_space_is_stripped :
  Str.strip (nbsp +++ "x" +++ nbsp) = "x"%string /\
  Str.among (Str.lower (Str.strip ("Q" +++ nbsp)))
            ["q"; "quit"; "exit"; EmptyString]%string = true /\
  Str.among (Str.lower (Str.strip (nbsp +++ "No")))
            ["n"; "no"]%string = true.
Proof. repeat split; vm_compute; reflexivity. Qed.

(** A session on that catalog: the choice [2] followed by a no-break
    space shows the snippet without its no-break spaces, the answer [n]
    followed by a no-break space keeps it from the clipboard, and the
    answer [no] after a no-break space ends the session. *)
Example session_with_no_break_spaces :
  exists w',
    main 1 (session fullwidth_named_catalog
                    ["2" +++ nbsp; "n" +++ nbsp; nbsp +++ "no"]%string)
    = Some (inr tt, w') /\
    In (Line "x") (stdout w') /\
    clipboard w' = None /\
    stdin w' = [].
Proof.
  eexists. split; [vm_compute; reflexivity|].
  repeat split. cbn [stdout]. simpl. tauto.
Qed.
